(** * A shallow embedding of [backend/mcp_agent.py]

    The development follows the Python module class by class:
    - [Py]: the Python values the module handles (JSON-like data), with the
      truthiness tests that the code relies on ([x or y], [if x:]);
    - [MCPConfig]: [load_config] and [save_config] over an explicit file
      system;
    - [WebMCPAgent]: the generator [chat_stream], written in state-passing
      style: the state records the transcript ([shared_history]), the events
      yielded so far, the lines printed, the requests sent to the model and
      the tool invocations made;
    - [Sanitizer]: the method [_sanitize_and_uniq_tool_name] over the set of
      names in use.

    A [string] is a sequence of characters.  Library code ([json.loads],
    [json.dump], [str], the chat model, the remote tools, the clock) is not
    part of the module: the definitions take it as parameters. *)

From Stdlib Require Import Ascii String ZArith Lia.
From stdpp Require Import base strings pretty gmap list.

Set Warnings "-register-all".

(** ** Python values *)

Module Py.

Inductive pyval : Type :=
| PNone
| PBool (b : bool)
| PInt (z : Z)
| PStr (s : string)
| PList (items : list pyval)
| PDict (entries : list (string * pyval)).

(** [bool(v)]: what [if v:] and [v or w] test. *)
Definition truthy (v : pyval) : bool :=
  match v with
  | PNone => false
  | PBool b => b
  | PInt z => negb (Z.eqb z 0)
  | PStr s => negb (String.eqb s "")
  | PList items => negb (Nat.eqb (length items) 0)
  | PDict entries => negb (Nat.eqb (length entries) 0)
  end.

(** [v or w] *)
Definition py_or (v w : pyval) : pyval := if truthy v then v else w.

(** [isinstance(v, dict)] *)
Definition is_dict (v : pyval) : bool :=
  match v with PDict _ => true | _ => false end.

(** Truthiness of an optional string ([None] and [""] are falsy). *)
Definition truthy_str (o : option string) : bool :=
  match o with
  | Some s => negb (String.eqb s "")
  | None => false
  end.

(** [o or d] for an optional string [o] and a string [d]. *)
Definition str_or (o : option string) (d : string) : string :=
  match o with
  | Some s => if String.eqb s "" then d else s
  | None => d
  end.

(** [o1 or o2] between two optional strings. *)
Definition opt_or (o1 o2 : option string) : option string :=
  if truthy_str o1 then o1 else o2.

End Py.
Import Py.

(** ** Tool-name sanitizer *)

Module Sanitizer.

(** The method [WebMCPAgent._sanitize_and_uniq_tool_name]; the set
    [self._used_tool_names] is passed in and returned. *)

(** The character class [[a-zA-Z0-9_-]]. *)
Definition in_class (c : ascii) : bool :=
  (Ascii.leb "a" c && Ascii.leb c "z")
  || (Ascii.leb "A" c && Ascii.leb c "Z")
  || (Ascii.leb "0" c && Ascii.leb c "9")
  || Ascii.eqb c "_" || Ascii.eqb c "-".

(** [re.sub(r"[^a-zA-Z0-9_-]", "_", name)] *)
Fixpoint re_sub_outside_class (name : string) : string :=
  match name with
  | EmptyString => EmptyString
  | String c rest =>
      String (if in_class c then c else "_"%char) (re_sub_outside_class rest)
  end.

(** Every character of [s] satisfies [f]. *)
Fixpoint string_forallb (f : ascii -> bool) (s : string) : bool :=
  match s with
  | EmptyString => true
  | String c rest => f c && string_forallb f rest
  end.

(** [f"{base}_{index}"] *)
Definition suffixed (base : string) (index : nat) : string :=
  base +:+ "_" +:+ pretty index.

(** The loop [while sanitized in self._used_tool_names]; it gives [None]
    when [fuel] iterations were not enough to leave the loop. *)
Fixpoint uniq_loop (fuel : nat) (used : gset string) (base : string)
    (index : nat) (sanitized : string) : option string :=
  if decide (sanitized ∈ used) then
    match fuel with
    | 0 => None
    | S fuel' =>
        let index := S index in
        uniq_loop fuel' used base index (suffixed base index)
    end
  else Some sanitized.

(** [_sanitize_and_uniq_tool_name(self, name)] for a [str] argument: the
    returned name and the new value of [self._used_tool_names]. *)
Definition _sanitize_and_uniq_tool_name (used : gset string) (name : string)
    : option (string * gset string) :=
  let sanitized := re_sub_outside_class name in
  let sanitized := if String.eqb sanitized "" then "tool" else sanitized in
  let base := sanitized in
  let index := 1 in
  match uniq_loop (size used) used base index sanitized with
  | Some sanitized => Some (sanitized, {[ sanitized ]} ∪ used)
  | None => None
  end.

(** The base string of a raw name: what the loop starts from. *)
Definition base_of (name : string) : string :=
  let sanitized := re_sub_outside_class name in
  if String.eqb sanitized "" then "tool" else sanitized.

(** The name tried at a given value of [index]. *)
Definition candidate (base : string) (index : nat) : string :=
  if decide (index = 1) then base else suffixed base index.

(** The renaming loop of [initialize] over the tools of a server: the
    names are sanitized one after the other on the same agent. *)
Fixpoint sanitize_names (used : gset string) (names : list string)
    : option (list string * gset string) :=
  match names with
  | [] => Some ([], used)
  | name :: rest =>
      match _sanitize_and_uniq_tool_name used name with
      | Some (sanitized, used') =>
          match sanitize_names used' rest with
          | Some (out, used'') => Some (sanitized :: out, used'')
          | None => None
          end
      | None => None
      end
  end.

End Sanitizer.

(** ** Configuration file *)

Module MCPConfig.

(** The files the process can see: the text content of each existing path,
    and the paths where [open(path, 'w')] raises. *)
Record filesystem := {
  files : gmap string string;
  read_only : gset string;
}.

(** An [MCPConfig] object. *)
Record t := {
  config_file : string;
  default_config : pyval;
}.

(** [MCPConfig.__init__]: [self.default_config = {}]. *)
Definition __init__ (config_file : string) : t :=
  {| config_file := config_file; default_config := PDict [] |}.

Section Json.

(** [json.load] over the text of the file; [None] when it raises. *)
Variable json_loads : string -> option pyval.
(** The text that [json.dump(config, f, indent=2, ensure_ascii=False)]
    writes. *)
Variable json_dumps : pyval -> string.

(** [save_config]: a failing write is caught (and printed), the file system
    is then left as it was. *)
Definition save_config (self : t) (config : pyval) (fs : filesystem)
    : filesystem :=
  if decide (config_file self ∈ read_only fs) then fs
  else {| files := <[ config_file self := json_dumps config ]> (files fs);
          read_only := read_only fs |}.

(** [load_config]: the [return] inside the [try] is the only way out before
    the two last statements; a missing file and a load that raises both fall
    through to them. The diagnostic prints are left out. *)
Definition load_config (self : t) (fs : filesystem) : pyval * filesystem :=
  let loaded :=
    match files fs !! config_file self with
    | Some text => json_loads text
    | None => None
    end in
  match loaded with
  | Some config => (config, fs)
  | None =>
      let fs := save_config self (default_config self) fs in
      (default_config self, fs)
  end.

End Json.

End MCPConfig.

(** ** The agent: [chat_stream] *)

Module WebMCPAgent.

(** *** Data *)

(** The [function] entry of a tool call in dictionary form. *)
Record function_call := {
  fn_name : option string;
  fn_arguments : pyval;
}.

(** A tool-call intent as the model reports it: a dictionary (the keys [id],
    [function], [name], [args]; a missing key reads as [None]) or an object
    with the attributes [id], [name], [args]. *)
Inductive tool_call :=
| ToolCallDict (id : option string) (function : option function_call)
    (name : option string) (args : pyval)
| ToolCallObj (id : option string) (name : option string) (args : pyval).

(** An entry of the transcript, or of the request sent to the model. *)
Inductive message :=
| SystemMessage (content : string)
| UserMessage (content : string)
| AssistantMessage (content : string) (tool_calls : option (list tool_call))
| ToolMessage (tool_call_id name content : string).

(** The dictionaries that [chat_stream] yields, by their ["type"]. *)
Inductive event :=
| status (content : string)
| ai_response_start (content : string)
| ai_response_chunk (content : string)
| ai_response_end (content : string)
| tool_plan (content : string) (tool_count : nat)
| tool_start (tool_id tool_name : string) (tool_args : pyval)
    (progress : string)
| tool_end (tool_id tool_name result : string)
| tool_error (tool_id error : string)
| error (content : string).

(** An event of [astream_events]: a streamed chunk ([data.chunk], which may
    be absent, and its [content]), the end of the model call (the
    [tool_calls] and the [content] of [data.output]), or any other event. *)
Inductive stream_event :=
| on_chat_model_stream (chunk : option (option string))
| on_chat_model_end (tool_calls : option (list tool_call))
    (content : option string)
| on_other (ev : string).

(** What iterating over [astream_events] does: it ends, it raises, or it
    produces an event and goes on. Opening the stream is its first step. *)
Inductive astream :=
| stream_done
| stream_raise (e : string)
| stream_cons (ev : stream_event) (rest : astream).

(** The result of [await tool.ainvoke(args)]: the [str] of the value
    returned, or the [str] of the exception raised. *)
Inductive tool_outcome :=
| returns (result : string)
| raises (e : string).

Record tool := {
  name : string;
  ainvoke : pyval -> tool_outcome;
}.

(** A record of the caller's history. *)
Record history_record := {
  user_input : string;
  ai_response : option string;
}.

(** What [datetime.now()] is read for. *)
Record datetime := {
  strftime_date : string;
  weekday : nat;
}.

(** The state of a run of the generator. *)
Record state := {
  shared_history : list message;
  yielded : list event;
  stdout : list string;
  requests : list (list message);
  invocations : list (string * pyval);
  session_ctx : option string;
}.

Definition initial_state : state :=
  {| shared_history := []; yielded := []; stdout := []; requests := [];
     invocations := []; session_ctx := None |}.

(** [yield e] *)
Definition yield (e : event) (st : state) : state :=
  {| shared_history := shared_history st; yielded := yielded st ++ [e];
     stdout := stdout st; requests := requests st;
     invocations := invocations st; session_ctx := session_ctx st |}.

(** [print(line)] *)
Definition print (line : string) (st : state) : state :=
  {| shared_history := shared_history st; yielded := yielded st;
     stdout := stdout st ++ [line]; requests := requests st;
     invocations := invocations st; session_ctx := session_ctx st |}.

(** [shared_history.append(m)] *)
Definition history_append (m : message) (st : state) : state :=
  {| shared_history := shared_history st ++ [m]; yielded := yielded st;
     stdout := stdout st; requests := requests st;
     invocations := invocations st; session_ctx := session_ctx st |}.

(** A request to the model. *)
Definition record_request (messages : list message) (st : state) : state :=
  {| shared_history := shared_history st; yielded := yielded st;
     stdout := stdout st; requests := requests st ++ [messages];
     invocations := invocations st; session_ctx := session_ctx st |}.

(** A call of [ainvoke]. *)
Definition record_invocation (tool_name : string) (args : pyval)
    (st : state) : state :=
  {| shared_history := shared_history st; yielded := yielded st;
     stdout := stdout st; requests := requests st;
     invocations := invocations st ++ [(tool_name, args)];
     session_ctx := session_ctx st |}.

(** [self._current_session_id_ctx.set(session_id)] *)
Definition set_session (session_id : option string) (st : state) : state :=
  {| shared_history := shared_history st; yielded := yielded st;
     stdout := stdout st; requests := requests st;
     invocations := invocations st; session_ctx := session_id |}.

(** The locals of a round that the stream loop sets. *)
Record probe := {
  tool_calls_check : option (list tool_call);
  buffered_chunks : list string;
  content_preview : string;
  response_started : bool;
}.

(** How a round leaves the body of the [while]: [continue] or [return]. *)
Inductive control := Continue | Return.

Definition max_rounds : nat := 25.

(** [exit_to_stream = False]; it is never assigned again. *)
Definition exit_to_stream : bool := false.

(** [if tool_calls_check:] *)
Definition has_tool_calls (o : option (list tool_call)) : bool :=
  match o with
  | Some (_ :: _) => true
  | _ => false
  end.

(** *** Helpers of [chat_stream] *)

(** [_get_tools_system_prompt] *)
Definition _get_tools_system_prompt (now : datetime) : string :=
  let current_date := strftime_date now in
  let current_weekday :=
    nth (weekday now)
      ["周一"; "周二"; "周三"; "周四"; "周五"; "周六"; "周日"] "" in
  "今天是 " +:+ current_date +:+ "（" +:+ current_weekday
  +:+ "）。你是一个有用、无害、诚实的AI助手。" +:+ String "010" ""
  +:+ "- 你可以使用可用的工具来帮助用户解决问题。" +:+ String "010" ""
  +:+ "- 当用户的问题需要获取实时信息、执行特定操作或使用外部服务时，请使用合适的工具。"
  +:+ String "010" ""
  +:+ "- 对于一般性问题、知识性问题或不需要工具的问题，请直接回答。"
  +:+ String "010" ""
  +:+ "- 如果决定使用工具，请只输出 tool_calls，不要同时输出自然语言回答。"
  +:+ String "010" ""
  +:+ "- 如果决定不使用工具，请提供有帮助的中文回答。" +:+ String "010" "".

(** Step 1 of [chat_stream]: the shared history built from the caller's
    records. *)
Fixpoint history_messages (history : list history_record) : list message :=
  match history with
  | [] => []
  | record :: rest =>
      UserMessage (user_input record)
      :: (if truthy_str (ai_response record)
          then [AssistantMessage (default "" (ai_response record)) None]
          else [])
      ++ history_messages rest
  end.

(** The identifier, the name and the raw arguments of the [i]-th call. *)
Definition read_tool_call (i : nat) (tool_call : tool_call)
    : string * string * pyval :=
  match tool_call with
  | ToolCallDict id function name args =>
      let tool_id := str_or id ("call_" +:+ pretty i) in
      let fn_name' :=
        match function with Some fn => fn_name fn | None => None end in
      let fn_arguments' :=
        match function with Some fn => fn_arguments fn | None => PNone end in
      let tool_name := str_or (opt_or fn_name' name) "" in
      let tool_args_raw := py_or (py_or fn_arguments' args) (PDict []) in
      (tool_id, tool_name, tool_args_raw)
  | ToolCallObj id name args =>
      let tool_id := str_or id ("call_" +:+ pretty i) in
      let tool_name := str_or name "" in
      let tool_args_raw := py_or args (PDict []) in
      (tool_id, tool_name, tool_args_raw)
  end.

Definition tool_id_of (i : nat) (tool_call : tool_call) : string :=
  (read_tool_call i tool_call).1.1.

Definition tool_name_of (i : nat) (tool_call : tool_call) : string :=
  (read_tool_call i tool_call).1.2.

Definition tool_args_raw_of (i : nat) (tool_call : tool_call) : pyval :=
  (read_tool_call i tool_call).2.

(** The identifier that the intent itself carries, if any. *)
Definition tool_call_id_field (tool_call : tool_call) : option string :=
  match tool_call with
  | ToolCallDict id _ _ _ => id
  | ToolCallObj id _ _ => id
  end.

(** [for tool in self.tools: if tool.name == tool_name: ...; break] *)
Fixpoint find_tool (tools : list tool) (tool_name : string) : option tool :=
  match tools with
  | [] => None
  | tool :: rest =>
      if decide (name tool = tool_name) then Some tool
      else find_tool rest tool_name
  end.

Section Agent.

(** [json.loads]; [None] when it raises. *)
Variable json_loads : string -> option pyval.
(** The builtin [str]. *)
Variable py_str : pyval -> string.
(** [datetime.now()] as read in each round. *)
Variable now : nat -> datetime.
(** [self.llm_tools.astream_events(tools_messages, version="v1")] in each
    round. *)
Variable llm_tools : nat -> list message -> astream.
(** [self.tools] *)
Variable tools : list tool.

(** The block under the comment "解析参数". *)
Definition parse_args (tool_args_raw : pyval) : pyval :=
  match tool_args_raw with
  | PStr s =>
      if truthy tool_args_raw then
        match json_loads s with
        | Some parsed => parsed
        | None => PDict [("$raw", tool_args_raw)]
        end
      else PDict []
  | PDict _ => tool_args_raw
  | _ => PDict [("$raw", PStr (py_str tool_args_raw))]
  end.

(** The body of [async for event in ...] with its [try]/[except]. *)
Fixpoint consume (s : astream) (p : probe) (st : state) : probe * state :=
  match s with
  | stream_done => (p, st)
  | stream_raise e =>
      let st := print ("⚠️ 工具判定(流式)失败：" +:+ e) st in
      ({| tool_calls_check := None; buffered_chunks := buffered_chunks p;
          content_preview := ""; response_started := response_started p |},
       st)
  | stream_cons (on_chat_model_stream None) rest => consume rest p st
  | stream_cons (on_chat_model_stream (Some content_piece)) rest =>
      if truthy_str content_piece then
        let content_piece := default "" content_piece in
        let st :=
          if response_started p then st
          else yield (ai_response_start "AI正在回复...") st in
        let p :=
          {| tool_calls_check := tool_calls_check p;
             buffered_chunks := buffered_chunks p ++ [content_piece];
             content_preview := content_preview p;
             response_started := true |} in
        let st := print ("📤 [判定LLM流] " +:+ content_piece) st in
        let st := yield (ai_response_chunk content_piece) st in
        consume rest p st
      else consume rest p st
  | stream_cons (on_chat_model_end output_tool_calls output_content) rest =>
      let p :=
        {| tool_calls_check := output_tool_calls;
           buffered_chunks := buffered_chunks p;
           content_preview := str_or output_content "";
           response_started := response_started p |} in
      consume rest p st
  | stream_cons (on_other _) rest => consume rest p st
  end.

(** One iteration of [for i, tool_call in enumerate(tool_calls_to_run, 1)]. *)
Definition run_tool_call (i n : nat) (tool_call : tool_call) (st : state)
    : state :=
  let '(tool_id, tool_name, tool_args_raw) := read_tool_call i tool_call in
  let parsed_args := parse_args tool_args_raw in
  let st :=
    yield (tool_start tool_id tool_name parsed_args
             (pretty i +:+ "/" +:+ pretty n)) st in
  let '(tool_result, st) :=
    match find_tool tools tool_name with
    | None =>
        let error_msg := "工具 '" +:+ tool_name +:+ "' 未找到" in
        let st := print ("❌ " +:+ error_msg) st in
        let st := yield (tool_error tool_id error_msg) st in
        ("错误: " +:+ error_msg, st)
    | Some target_tool =>
        let st := record_invocation tool_name parsed_args st in
        match ainvoke target_tool parsed_args with
        | returns tool_result =>
            let st := yield (tool_end tool_id tool_name tool_result) st in
            (tool_result, st)
        | raises e =>
            let error_msg := "工具执行出错: " +:+ e in
            let st := print ("❌ " +:+ error_msg) st in
            let st := yield (tool_error tool_id error_msg) st in
            ("错误: " +:+ error_msg, st)
        end
    end in
  history_append (ToolMessage tool_id tool_name tool_result) st.

Fixpoint run_tool_calls (i n : nat) (tool_calls_to_run : list tool_call)
    (st : state) : state :=
  match tool_calls_to_run with
  | [] => st
  | tool_call :: rest =>
      run_tool_calls (S i) n rest (run_tool_call i n tool_call st)
  end.

(** Step 3 of the round, up to its [return]. *)
Definition finalize (p : probe) (st : state) : state :=
  let final_text :=
    match buffered_chunks p with
    | [] => content_preview p
    | _ :: _ => String.concat "" (buffered_chunks p)
    end in
  if response_started p then yield (ai_response_end final_text) st
  else
    let st := yield (ai_response_start "AI正在回复...") st in
    let st :=
      if String.eqb final_text "" then st
      else
        let st := print ("📤 [最终回复流] " +:+ final_text) st in
        yield (ai_response_chunk final_text) st in
    yield (ai_response_end final_text) st.

Definition probe0 : probe :=
  {| tool_calls_check := None; buffered_chunks := []; content_preview := "";
     response_started := false |}.

(** What a round does once the stream loop is over. *)
Definition decide_round (p : probe) (st : state) : state * control :=
  if has_tool_calls (tool_calls_check p) then
    let st :=
      if response_started p then
        print "⚠️ 检测到 tool_calls 但已开始输出文本流，按无工具处理以避免冲突" st
      else st in
    let tool_calls_to_run := default [] (tool_calls_check p) in
    let st :=
      yield (tool_plan
               ("AI决定调用 " +:+ pretty (length tool_calls_to_run)
                +:+ " 个工具")
               (length tool_calls_to_run)) st in
    let st :=
      history_append (AssistantMessage "" (Some tool_calls_to_run)) st in
    let st :=
      run_tool_calls 1 (length tool_calls_to_run) tool_calls_to_run st in
    if exit_to_stream then (finalize p st, Return) else (st, Continue)
  else (finalize p st, Return).

(** The body of the [while], for the value of [round_index] after its
    increment. *)
Definition chat_round (round_index : nat) (st : state) : state * control :=
  let st :=
    print ("🧠 第 " +:+ pretty round_index
           +:+ " 轮推理 (双实例：判定工具 + 纯流式回答)...") st in
  let tools_messages :=
    SystemMessage (_get_tools_system_prompt (now round_index))
    :: shared_history st in
  let st := record_request tools_messages st in
  let '(p, st) := consume (llm_tools round_index tools_messages) probe0 st in
  decide_round p st.

(** The statements after the [while]. *)
Definition rounds_exhausted (st : state) : state :=
  let st :=
    print ("⚠️ 达到最大推理轮数(" +:+ pretty max_rounds
           +:+ ")，直接返回提示信息") st in
  let final_text := "已达到最大推理轮数，请缩小问题范围或稍后重试。" in
  let st := yield (ai_response_start "AI正在回复...") st in
  let st := yield (ai_response_chunk final_text) st in
  yield (ai_response_end final_text) st.

(** [while round_index < max_rounds:]; [None] when [fuel] iterations were
    not enough to leave the loop. *)
Fixpoint while_rounds (fuel : nat) (round_index : nat) (st : state)
    : option state :=
  if round_index <? max_rounds then
    match fuel with
    | 0 => None
    | S fuel' =>
        let round_index := S round_index in
        match chat_round round_index st with
        | (st, Continue) => while_rounds fuel' round_index st
        | (st, Return) => Some st
        end
    end
  else Some (rounds_exhausted st).

(** The state in which the [while] is entered. *)
Definition enter_loop (user_input : string) (history : list history_record)
    (session_id : option string) : state :=
  let st := initial_state in
  let st := if truthy_str session_id then set_session session_id st else st in
  let st :=
    print ("🤖 开始处理用户输入: " +:+ String.substring 0 50 user_input
           +:+ "...") st in
  let st := yield (status "开始生成...") st in
  let shared_history :=
    history_messages history ++ [UserMessage user_input] in
  fold_left (fun st m => history_append m st) shared_history st.

(** [chat_stream]: the state when the generator is exhausted. Nothing in
    the body raises on values of these types, so the outer [except] and its
    [error] event are not reached. *)
Definition chat_stream (user_input : string) (history : list history_record)
    (session_id : option string) : option state :=
  while_rounds max_rounds 0 (enter_loop user_input history session_id).

End Agent.

End WebMCPAgent.

(** ** Vocabulary of the properties *)

Module Trace.
Import WebMCPAgent.

(** The content fragments of a stream: the non-empty [content] of its
    chunks, in order, up to the end of the stream or the exception. *)
Fixpoint fragments (s : astream) : list string :=
  match s with
  | stream_cons (on_chat_model_stream (Some (Some piece))) rest =>
      if String.eqb piece "" then fragments rest else piece :: fragments rest
  | stream_cons _ rest => fragments rest
  | stream_done | stream_raise _ => []
  end.

(** Whether iterating over the stream ends with an exception. *)
Fixpoint stream_raises (s : astream) : bool :=
  match s with
  | stream_done => false
  | stream_raise _ => true
  | stream_cons _ rest => stream_raises rest
  end.

(** What the terminal event (the last [on_chat_model_end]) reports, from
    the values [r] held before the stream. *)
Fixpoint reported (s : astream) (r : option (list tool_call) * string)
    : option (list tool_call) * string :=
  match s with
  | stream_cons (on_chat_model_end output_tool_calls output_content) rest =>
      reported rest (output_tool_calls, str_or output_content "")
  | stream_cons _ rest => reported rest r
  | stream_done | stream_raise _ => r
  end.

Definition reported_tool_calls (s : astream) : option (list tool_call) :=
  (reported s (None, "")).1.

Definition reported_content (s : astream) : string :=
  (reported s (None, "")).2.

(** The events forwarded while a stream with the fragments [frags] is
    read, in a round that had not started its response. *)
Definition forwarded (frags : list string) : list event :=
  match frags with
  | [] => []
  | _ :: _ => ai_response_start "AI正在回复..." :: (ai_response_chunk <$> frags)
  end.

Definition is_response_start (e : event) : bool :=
  match e with ai_response_start _ => true | _ => false end.
Definition is_response_chunk (e : event) : bool :=
  match e with ai_response_chunk _ => true | _ => false end.
Definition is_response_end (e : event) : bool :=
  match e with ai_response_end _ => true | _ => false end.
Definition is_error (e : event) : bool :=
  match e with error _ => true | _ => false end.

Definition is_tool_message (m : message) : bool :=
  match m with ToolMessage _ _ _ => true | _ => false end.

(** The number of events of a kind. *)
Fixpoint count (kind : event -> bool) (events : list event) : nat :=
  match events with
  | [] => 0
  | e :: rest => (if kind e then 1 else 0) + count kind rest
  end.

(** The contents of the response chunks among the events, in order. *)
Fixpoint chunk_contents (events : list event) : list string :=
  match events with
  | [] => []
  | ai_response_chunk content :: rest => content :: chunk_contents rest
  | _ :: rest => chunk_contents rest
  end.

Definition conflict_warning : string :=
  "⚠️ 检测到 tool_calls 但已开始输出文本流，按无工具处理以避免冲突".

Definition exhaustion_text : string :=
  "已达到最大推理轮数，请缩小问题范围或稍后重试。".

(** The request of a round on a transcript. *)
Definition request_of (now : nat -> datetime) (round_index : nat)
    (transcript : list message) : list message :=
  SystemMessage (_get_tools_system_prompt (now round_index)) :: transcript.

(** The content of the [tool_plan] event for [n] intents. *)
Definition plan_text (n : nat) : string :=
  "AI决定调用 " +:+ pretty n +:+ " 个工具".

(** The stream that a round reads on a state. *)
Definition stream_of (now : nat -> datetime)
    (llm_tools : nat -> list message -> astream) (round_index : nat)
    (st : state) : astream :=
  llm_tools round_index (request_of now round_index (shared_history st)).

Section Calls.

Variable json_loads : string -> option pyval.
Variable py_str : pyval -> string.
Variable tools : list tool.

(** The arguments that the [i]-th call is started with. *)
Definition parsed_args_of (i : nat) (tool_call : tool_call) : pyval :=
  parse_args json_loads py_str (tool_args_raw_of i tool_call).

Definition progress_of (i n : nat) : string := pretty i +:+ "/" +:+ pretty n.

Definition not_found_msg (tool_name : string) : string :=
  "工具 '" +:+ tool_name +:+ "' 未找到".

Definition failure_msg (e : string) : string := "工具执行出错: " +:+ e.

(** The content of the transcript entry of a failed call. *)
Definition error_content (error_msg : string) : string :=
  "错误: " +:+ error_msg.

(** The three ways in which the [i]-th of [n] calls can go, with the events
    it yields and the entry it appends to the transcript. *)
Inductive call_outcome (i n : nat) (tool_call : tool_call)
    : list event -> message -> Prop :=
| call_returned target result :
    find_tool tools (tool_name_of i tool_call) = Some target ->
    ainvoke target (parsed_args_of i tool_call) = returns result ->
    call_outcome i n tool_call
      [tool_start (tool_id_of i tool_call) (tool_name_of i tool_call)
         (parsed_args_of i tool_call) (progress_of i n);
       tool_end (tool_id_of i tool_call) (tool_name_of i tool_call) result]
      (ToolMessage (tool_id_of i tool_call) (tool_name_of i tool_call) result)
| call_not_found :
    find_tool tools (tool_name_of i tool_call) = None ->
    call_outcome i n tool_call
      [tool_start (tool_id_of i tool_call) (tool_name_of i tool_call)
         (parsed_args_of i tool_call) (progress_of i n);
       tool_error (tool_id_of i tool_call)
         (not_found_msg (tool_name_of i tool_call))]
      (ToolMessage (tool_id_of i tool_call) (tool_name_of i tool_call)
         (error_content (not_found_msg (tool_name_of i tool_call))))
| call_raised target e :
    find_tool tools (tool_name_of i tool_call) = Some target ->
    ainvoke target (parsed_args_of i tool_call) = raises e ->
    call_outcome i n tool_call
      [tool_start (tool_id_of i tool_call) (tool_name_of i tool_call)
         (parsed_args_of i tool_call) (progress_of i n);
       tool_error (tool_id_of i tool_call) (failure_msg e)]
      (ToolMessage (tool_id_of i tool_call) (tool_name_of i tool_call)
         (error_content (failure_msg e))).

(** The state that one call leaves, taken alone. *)
Definition call_alone (i n : nat) (tool_call : tool_call) : state :=
  run_tool_call json_loads py_str tools i n tool_call initial_state.

(** The events of the calls from the [i]-th on. *)
Fixpoint calls_events (i n : nat) (tool_calls : list tool_call)
    : list event :=
  match tool_calls with
  | [] => []
  | tool_call :: rest =>
      yielded (call_alone i n tool_call) ++ calls_events (S i) n rest
  end.

(** The transcript entries of the calls from the [i]-th on. *)
Fixpoint calls_messages (i n : nat) (tool_calls : list tool_call)
    : list message :=
  match tool_calls with
  | [] => []
  | tool_call :: rest =>
      shared_history (call_alone i n tool_call)
      ++ calls_messages (S i) n rest
  end.

(** The invocations of the calls from the [i]-th on. *)
Fixpoint calls_invocations (i n : nat) (tool_calls : list tool_call)
    : list (string * pyval) :=
  match tool_calls with
  | [] => []
  | tool_call :: rest =>
      invocations (call_alone i n tool_call)
      ++ calls_invocations (S i) n rest
  end.

(** The intents whose name is in the registry, with the arguments they are
    invoked with. *)
Fixpoint resolved_calls (i : nat) (tool_calls : list tool_call)
    : list (string * pyval) :=
  match tool_calls with
  | [] => []
  | tool_call :: rest =>
      match find_tool tools (tool_name_of i tool_call) with
      | Some _ =>
          (tool_name_of i tool_call, parsed_args_of i tool_call)
          :: resolved_calls (S i) rest
      | None => resolved_calls (S i) rest
      end
  end.

End Calls.

End Trace.

(** ** Scripted collaborators for the examples *)

Module Samples.
Import WebMCPAgent.

(** [json.loads] on the texts that the examples feed it: two texts that
    decode and texts that are not JSON. *)
Definition json_loads_sample (text : string) : option pyval :=
  if String.eqb text "{}" then Some (PDict [])
  else if String.eqb text "[1, 2]" then Some (PList [PInt 1; PInt 2])
  else None.

(** The text that [json.dump] writes for the empty dictionary, the only
    value that the examples save. *)
Definition json_dumps_sample (config : pyval) : string := "{}".

(** [str] on the scalars that the examples stringify. *)
Definition py_str_sample (v : pyval) : string :=
  match v with
  | PNone => "None"
  | PBool true => "True"
  | PBool false => "False"
  | PInt z => pretty z
  | PStr s => s
  | PList _ | PDict _ => "<container>"
  end.

Definition now_sample (round_index : nat) : datetime :=
  {| strftime_date := "2025年01月01日"; weekday := 2 |}.

(** A registry of two tools: one that answers, one that always raises. *)
Definition tools_sample : list tool :=
  [ {| name := "get_weather"; ainvoke := fun _ => returns "sunny" |};
    {| name := "flaky"; ainvoke := fun _ => raises "timeout" |} ].

Definition chunk_of (piece : string) : stream_event :=
  on_chat_model_stream (Some (Some piece)).

(** Three intents: a known tool, an unknown name, a tool that raises. *)
Definition call_weather : tool_call :=
  ToolCallDict (Some "call_a") None (Some "get_weather")
    (PDict [("city", PStr "Oslo")]).
Definition call_unknown : tool_call :=
  ToolCallDict (Some "call_b") None (Some "no_such_tool") (PDict []).
Definition call_flaky : tool_call :=
  ToolCallObj None (Some "flaky") (PStr "{}").

(** A model that streams two fragments and ends without tool calls. *)
Definition llm_content_only (round_index : nat) (messages : list message)
    : astream :=
  stream_cons (chunk_of "Hel")
    (stream_cons (chunk_of "lo")
       (stream_cons (on_chat_model_end None (Some "Hello")) stream_done)).

(** A model whose answer arrives only in the terminal event. *)
Definition llm_unstreamed (round_index : nat) (messages : list message)
    : astream :=
  stream_cons (on_chat_model_end None (Some "Hello")) stream_done.

(** A model whose stream breaks after one fragment. *)
Definition llm_breaks_after_fragment (round_index : nat)
    (messages : list message) : astream :=
  stream_cons (chunk_of "Hi") (stream_raise "connection reset").

(** A model whose stream cannot be opened. *)
Definition llm_breaks_at_once (round_index : nat) (messages : list message)
    : astream :=
  stream_raise "connection refused".

(** A model that asks for tools in every round. *)
Definition llm_always_tools (round_index : nat) (messages : list message)
    : astream :=
  stream_cons (on_chat_model_end (Some [call_weather]) None) stream_done.

(** A model that streams text and then reports three intents in its first
    round, and answers in the second. *)
Definition llm_text_then_tools (round_index : nat) (messages : list message)
    : astream :=
  if round_index =? 1 then
    stream_cons (chunk_of "Let me check.")
      (stream_cons
         (on_chat_model_end (Some [call_weather; call_unknown; call_flaky])
            (Some "Let me check."))
         stream_done)
  else llm_content_only round_index messages.

(** The state in which the loop is entered in the examples. *)
Definition entry_sample : state :=
  enter_loop "weather in Oslo?" [] (Some "s1").

Definition intents_sample : list tool_call :=
  [call_weather; call_unknown; call_flaky].

(** An intent whose arguments are the text of a JSON array. *)
Definition call_array_args : tool_call :=
  ToolCallDict (Some "call_c")
    (Some {| fn_name := Some "get_weather"; fn_arguments := PStr "[1, 2]" |})
    None PNone.

(** A configuration object, a file system where its file is not JSON, and
    one where the file is missing. *)
Definition config_sample : MCPConfig.t := MCPConfig.__init__ "mcp.json".


Definition fs_missing : MCPConfig.filesystem :=
  {| MCPConfig.files := ∅; MCPConfig.read_only := ∅ |}.

End Samples.

(** ** The registry: tool retrieval in [initialize] and [get_tools_info] *)

Module Registry.
Import WebMCPAgent.

(** What an attribute of a tool can hold: plain data, an object with a
    [model_json_schema] method (which returns data or raises), or any other
    object. *)
Inductive pyobj :=
| obj_plain (v : pyval)
| obj_model (model_json_schema : option pyval)
| obj_opaque.

(** A tool as a provider returns it: the name and [ainvoke] are the [handle]
    that [chat_stream] uses; [name_frozen] tells whether assigning
    [tool.name] raises; an attribute that the object does not have is
    [None]. *)
Record provider_tool := {
  handle : tool;
  name_frozen : bool;
  description : string;
  args_schema : option pyobj;
  tool_call_schema : option pyobj;
  input_schema : option pyobj;
}.

Definition tool_name (t : provider_tool) : string := name (handle t).

(** [try: tool.name = sanitized; except Exception: pass] *)
Definition set_name (sanitized : string) (t : provider_tool)
    : provider_tool :=
  if name_frozen t then t
  else {| handle := {| name := sanitized; ainvoke := ainvoke (handle t) |};
          name_frozen := name_frozen t;
          description := description t;
          args_schema := args_schema t;
          tool_call_schema := tool_call_schema t;
          input_schema := input_schema t |}.

(** The fields of the agent that hold the registry. [tools_by_server] is a
    dictionary: its entries are kept in insertion order. *)
Record agent := {
  tools : list provider_tool;
  tools_by_server : list (string * list provider_tool);
  _used_tool_names : gset string;
}.

(** The registry after [WebMCPAgent.__init__]. *)
Definition __init__ : agent :=
  {| tools := []; tools_by_server := []; _used_tool_names := ∅ |}.

(** [d[k] = v] on a dictionary: the entry of an existing key is replaced in
    place, a new key is added at the end. *)
Fixpoint dict_set {V : Type} (k : string) (v : V) (d : list (string * V))
    : list (string * V) :=
  match d with
  | [] => [(k, v)]
  | (k', v') :: rest =>
      if decide (k' = k) then (k, v) :: rest
      else (k', v') :: dict_set k v rest
  end.

(** [d.get(k)] *)
Fixpoint dict_get {V : Type} (k : string) (d : list (string * V))
    : option V :=
  match d with
  | [] => None
  | (k', v') :: rest => if decide (k' = k) then Some v' else dict_get k rest
  end.

(** The loop [for tool in server_tools] of [initialize]: each name is
    sanitized on the agent's set of names and written back when it
    changed. [None] stands for a sanitizer loop that runs out of fuel. *)
Fixpoint sanitize_server_tools (used : gset string)
    (server_tools : list provider_tool)
    : option (list provider_tool * gset string) :=
  match server_tools with
  | [] => Some ([], used)
  | tool :: rest =>
      let original_name := str_or (Some (tool_name tool)) "" in
      match Sanitizer._sanitize_and_uniq_tool_name used original_name with
      | Some (sanitized, used) =>
          let tool :=
            if String.eqb sanitized original_name then tool
            else set_name sanitized tool in
          match sanitize_server_tools used rest with
          | Some (sanitized_tools, used) => Some (tool :: sanitized_tools, used)
          | None => None
          end
      | None => None
      end
  end.

(** The loop [for server_name in self.server_configs.keys()] of
    [initialize]; [get_tools server_name] is
    [await self.mcp_client.get_tools(server_name=server_name)], [None] when
    it raises. *)
Fixpoint fetch_servers (get_tools : string -> option (list provider_tool))
    (server_names : list string) (self : agent) : option agent :=
  match server_names with
  | [] => Some self
  | server_name :: rest =>
      match get_tools server_name with
      | Some server_tools =>
          match sanitize_server_tools (_used_tool_names self) server_tools with
          | Some (sanitized_tools, used) =>
              fetch_servers get_tools rest
                {| tools := tools self ++ sanitized_tools;
                   tools_by_server :=
                     dict_set server_name sanitized_tools
                       (tools_by_server self);
                   _used_tool_names := used |}
          | None => None
          end
      | None =>
          fetch_servers get_tools rest
            {| tools := tools self;
               tools_by_server :=
                 dict_set server_name [] (tools_by_server self);
               _used_tool_names := _used_tool_names self |}
      end
  end.

(** [self.tools] as [chat_stream] reads it. *)
Definition handles (self : agent) : list tool := handle <$> tools self.

(** *** [get_tools_info] *)

Record tool_info := {
  info_name : string;
  info_description : string;
  parameters : pyval;
  required : pyval;
}.

Record server_info := {
  server_name : string;
  server_tools : list tool_info;
  tool_count : nat;
}.

Record tools_info := {
  servers : list (string * server_info);
  total_tools : nat;
  server_count : nat;
}.

(** [bool(o)] *)
Definition truthy_obj (o : pyobj) : bool :=
  match o with
  | obj_plain v => truthy v
  | obj_model _ | obj_opaque => true
  end.

(** [hasattr(tool, a) and tool.a] *)
Definition attr_truthy (a : option pyobj) : bool :=
  match a with
  | Some o => truthy_obj o
  | None => false
  end.

(** The three attempts to find a schema; [None] when an exception reaches
    the [except] of [get_tools_info], which happens only when the
    [model_json_schema] of [args_schema] raises. *)
Definition find_schema (tool : provider_tool) : option pyobj :=
  let schema := obj_plain PNone in
  let method1 :=
    if attr_truthy (args_schema tool) then
      match args_schema tool with
      | Some (obj_plain (PDict entries)) => Some (obj_plain (PDict entries))
      | Some (obj_model (Some json)) => Some (obj_plain json)
      | Some (obj_model None) => None
      | _ => Some schema
      end
    else Some schema in
  match method1 with
  | None => None
  | Some schema =>
      let schema :=
        if negb (truthy_obj schema) && attr_truthy (tool_call_schema tool)
        then default schema (tool_call_schema tool)
        else schema in
      let schema :=
        if negb (truthy_obj schema) && attr_truthy (input_schema tool) then
          match input_schema tool with
          | Some (obj_plain (PDict entries)) => obj_plain (PDict entries)
          | Some (obj_model (Some json)) => obj_plain json
          | _ => schema
          end
        else schema in
      Some schema
  end.

(** The entry of a tool: its name and description, and the parameters read
    from the schema when one was found. The diagnostic print of the
    [except] is left out. *)
Definition tool_info_of (tool : provider_tool) : tool_info :=
  let tool_info :=
    {| info_name := tool_name tool; info_description := description tool;
       parameters := PDict []; required := PList [] |} in
  match find_schema tool with
  | Some (obj_plain (PDict schema)) =>
      if truthy (PDict schema) then
        match dict_get "properties" schema with
        | Some properties =>
            {| info_name := tool_name tool;
               info_description := description tool;
               parameters := properties;
               required := default (PList []) (dict_get "required" schema) |}
        | None => tool_info
        end
      else tool_info
  | _ => tool_info
  end.

(** The loop [for server_name, server_tools in
    self.tools_by_server.items()]. *)
Fixpoint servers_info_loop (items : list (string * list provider_tool))
    (servers_info : list (string * server_info)) (total_tools : nat)
    : list (string * server_info) * nat :=
  match items with
  | [] => (servers_info, total_tools)
  | (server_name, server_tools) :: rest =>
      let tools_info := tool_info_of <$> server_tools in
      let servers_info :=
        dict_set server_name
          {| server_name := server_name; server_tools := tools_info;
             tool_count := length tools_info |} servers_info in
      servers_info_loop rest servers_info (total_tools + length tools_info)
  end.

Definition get_tools_info (self : agent) : tools_info :=
  match tools_by_server self with
  | [] => {| servers := []; total_tools := 0; server_count := 0 |}
  | _ :: _ =>
      let '(servers_info, total_tools) :=
        servers_info_loop (tools_by_server self) [] 0 in
      {| servers := servers_info; total_tools := total_tools;
         server_count := length servers_info |}
  end.

End Registry.

(** ** More vocabulary: tallies over a run *)

Module Tally.
Import WebMCPAgent Trace.

Definition is_status (e : event) : bool :=
  match e with status _ => true | _ => false end.
Definition is_tool_start (e : event) : bool :=
  match e with tool_start _ _ _ _ => true | _ => false end.
Definition is_tool_end (e : event) : bool :=
  match e with tool_end _ _ _ => true | _ => false end.
Definition is_tool_error (e : event) : bool :=
  match e with tool_error _ _ => true | _ => false end.
Definition is_tool_plan (e : event) : bool :=
  match e with tool_plan _ _ => true | _ => false end.

Definition is_system_message (m : message) : bool :=
  match m with SystemMessage _ => true | _ => false end.

(** The number of tool entries of a transcript. *)
Definition tool_entries (transcript : list message) : nat :=
  length (List.filter is_tool_message transcript).

(** The contents of the user entries of a transcript, in order. *)
Fixpoint user_contents (transcript : list message) : list string :=
  match transcript with
  | [] => []
  | UserMessage content :: rest => content :: user_contents rest
  | _ :: rest => user_contents rest
  end.

(** A request is the system instruction followed by entries that are not
    system entries. *)
Definition well_formed_request (request : list message) : Prop :=
  ∃ instruction rest,
    request = SystemMessage instruction :: rest
    ∧ Forall (λ m, is_system_message m = false) rest.

End Tally.

(** ** Scripted providers for the examples *)

Module RegistrySamples.
Import WebMCPAgent Registry.

Definition plain_tool (tool_name description : string) : provider_tool :=
  {| handle := {| name := tool_name; ainvoke := fun _ => returns "ok" |};
     name_frozen := false; description := description;
     args_schema := None; tool_call_schema := None; input_schema := None |}.

(** Two providers that answer, with names that collide once sanitized, and
    one whose retrieval raises. *)
Definition get_tools_sample (server_name : string)
    : option (list provider_tool) :=
  if String.eqb server_name "maps" then
    Some [plain_tool "geo code" "address to coordinates";
          plain_tool "route" "route between two points"]
  else if String.eqb server_name "search" then
    Some [plain_tool "geo.code" "search by place"]
  else None.

(** A tool whose [args_schema] is a dictionary without ["properties"]. *)
Definition tool_without_properties : provider_tool :=
  {| handle := {| name := "bare"; ainvoke := fun _ => returns "ok" |};
     name_frozen := false; description := "no properties";
     args_schema := Some (obj_plain (PDict [("required", PList [PStr "q"])]));
     tool_call_schema := None; input_schema := None |}.

(** A tool whose [args_schema] raises while its [input_schema] is a usable
    dictionary. *)
Definition tool_with_failing_model : provider_tool :=
  {| handle := {| name := "broken"; ainvoke := fun _ => returns "ok" |};
     name_frozen := false; description := "schema raises";
     args_schema := Some (obj_model None);
     tool_call_schema := None;
     input_schema :=
       Some (obj_plain (PDict [("properties", PDict [("q", PStr "string")])]))
  |}.

(** A tool described by its [args_schema] dictionary. *)
Definition tool_with_schema : provider_tool :=
  {| handle := {| name := "search"; ainvoke := fun _ => returns "ok" |};
     name_frozen := false; description := "web search";
     args_schema :=
       Some (obj_plain
               (PDict [("properties", PDict [("q", PStr "string")]);
                       ("required", PList [PStr "q"])]));
     tool_call_schema := Some obj_opaque;
     input_schema := Some (obj_plain (PDict [("properties", PDict [])])) |}.

(** A tool without [args_schema], whose [tool_call_schema] is an object
    and whose [input_schema] is a usable dictionary. *)
Definition tool_with_opaque_call_schema : provider_tool :=
  {| handle := {| name := "opaque"; ainvoke := fun _ => returns "ok" |};
     name_frozen := false; description := "schema object";
     args_schema := None;
     tool_call_schema := Some obj_opaque;
     input_schema :=
       Some (obj_plain (PDict [("properties", PDict [("q", PStr "string")])]))
  |}.

Definition providers_sample : list string := ["maps"; "down"; "search"].

Definition agent_sample : agent :=
  {| tools := [tool_with_schema; tool_without_properties;
               tool_with_failing_model];
     tools_by_server :=
       [("a", [tool_with_schema; tool_without_properties]);
        ("b", [tool_with_failing_model])];
     _used_tool_names := {[ "search"; "bare"; "broken" ]} |}.

End RegistrySamples.

(** * Properties *)

(** ** The sanitizer *)

Section SanitizerFacts.
Import Sanitizer.

Lemma string_forallb_app f s1 s2 :
  string_forallb f (s1 +:+ s2) = string_forallb f s1 && string_forallb f s2.
Proof.
  induction s1 as [|c s1 IH]; simpl; [done|].
  rewrite IH. by rewrite andb_assoc.
Qed.

Lemma in_class_digit x : in_class (pretty_N_char x) = true.
Proof. unfold pretty_N_char. by repeat case_match. Qed.

Lemma pretty_N_go_class x s :
  string_forallb in_class s = true →
  string_forallb in_class (pretty_N_go x s) = true.
Proof.
  revert s. induction (N.lt_wf_0 x) as [x _ IH]; intros s Hs.
  destruct (decide (x = 0)%N) as [->|Hx].
  - by rewrite pretty_N_go_0.
  - rewrite pretty_N_go_step by lia. apply IH.
    + apply N.div_lt; lia.
    + simpl. by rewrite in_class_digit.
Qed.

Lemma pretty_nat_class (n : nat) : string_forallb in_class (pretty n) = true.
Proof.
  unfold pretty, pretty_nat, pretty, pretty_N.
  case_decide; [done|]. by apply pretty_N_go_class.
Qed.

Lemma re_sub_class raw : string_forallb in_class (re_sub_outside_class raw) = true.
Proof.
  induction raw as [|c raw IH]; simpl; [done|].
  rewrite IH, andb_true_r. by destruct (in_class c) eqn:E.
Qed.

Lemma re_sub_length raw :
  String.length (re_sub_outside_class raw) = String.length raw.
Proof. induction raw; simpl; auto. Qed.

Lemma base_of_class raw : string_forallb in_class (base_of raw) = true.
Proof.
  unfold base_of. destruct (String.eqb _ _); [done|apply re_sub_class].
Qed.

Lemma base_of_nonempty raw : base_of raw ≠ "".
Proof.
  unfold base_of. destruct (String.eqb _ _) eqn:E; [done|].
  by apply String.eqb_neq in E.
Qed.

Lemma suffixed_class base index :
  string_forallb in_class base = true →
  string_forallb in_class (suffixed base index) = true.
Proof.
  intros Hb. unfold suffixed. rewrite !string_forallb_app, Hb.
  by rewrite pretty_nat_class.
Qed.

Lemma candidate_class base index :
  string_forallb in_class base = true →
  string_forallb in_class (candidate base index) = true.
Proof.
  intros Hb. unfold candidate. case_decide; [done|by apply suffixed_class].
Qed.

Lemma app_nonempty s1 s2 : s1 ≠ "" → s1 +:+ s2 ≠ "".
Proof. by destruct s1. Qed.

Lemma candidate_nonempty base index : base ≠ "" → candidate base index ≠ "".
Proof.
  intros Hb. unfold candidate, suffixed. case_decide; [done|].
  by apply app_nonempty.
Qed.

Lemma string_length_app s1 s2 :
  String.length (s1 +:+ s2) = String.length s1 + String.length s2.
Proof. induction s1 as [|c s1 IH]; simpl; [done|by rewrite IH]. Qed.

Lemma suffixed_ne_base base index : suffixed base index ≠ base.
Proof.
  unfold suffixed. intros H.
  assert (String.length (base +:+ "_" +:+ pretty index) = String.length base)
    as Hlen by (by rewrite H).
  rewrite !string_length_app in Hlen. simpl in Hlen. lia.
Qed.

Lemma suffixed_inj base i j : suffixed base i = suffixed base j → i = j.
Proof.
  unfold suffixed. intros H.
  apply (inj (String.app base)) in H.
  apply (inj (String.app "_")) in H.
  by apply (inj pretty) in H.
Qed.

Lemma candidate_inj base i j :
  candidate base i = candidate base j → i = j.
Proof.
  unfold candidate. intros H. repeat case_decide; subst; try done.
  - symmetry in H. by apply suffixed_ne_base in H.
  - by apply suffixed_ne_base in H.
  - by apply suffixed_inj in H.
Qed.

Lemma candidate_S base index : suffixed base (S (S index)) = candidate base (S (S index)).
Proof. unfold candidate. by case_decide. Qed.

(** When the loop leaves, it leaves with the first candidate, from [index]
    on, that is not in use. *)
Lemma uniq_loop_Some fuel used base index s :
  uniq_loop fuel used base (S index) (candidate base (S index)) = Some s →
  ∃ k, S index ≤ k ∧ s = candidate base k ∧ (s ∉ used)
       ∧ ∀ j, S index ≤ j < k → candidate base j ∈ used.
Proof.
  revert index. induction fuel as [|fuel IH]; intros index; simpl.
  - case_decide; [done|]. intros [= <-].
    exists (S index). split_and!; [lia|done|done|lia].
  - case_decide as Hin.
    + rewrite candidate_S. intros (k & Hk & -> & Hnot & Hbelow)%IH.
      exists k. split_and!; [lia|done|done|].
      intros j Hj. destruct (decide (j = S index)) as [->|]; [done|].
      apply Hbelow. lia.
    + intros [= <-]. exists (S index). split_and!; [lia|done|done|lia].
Qed.

(** When the fuel runs out, every candidate tried was in use. *)
Lemma uniq_loop_None fuel used base index :
  uniq_loop fuel used base (S index) (candidate base (S index)) = None →
  ∀ j, S index ≤ j ≤ S index + fuel → candidate base j ∈ used.
Proof.
  revert index. induction fuel as [|fuel IH]; intros index; simpl.
  - case_decide; [|done]. intros _ j Hj. by replace j with (S index) by lia.
  - case_decide as Hin; [|done].
    rewrite candidate_S. intros Hnone j Hj.
    destruct (decide (j = S index)) as [->|]; [done|].
    apply (IH _ Hnone). lia.
Qed.

(** [size used] iterations are enough: the candidates are pairwise
    distinct, so they cannot all be in use. *)
Lemma uniq_loop_total used base :
  is_Some (uniq_loop (size used) used base 1 base).
Proof.
  destruct (uniq_loop (size used) used base 1 base) as [s|] eqn:E; [by eexists|].
  exfalso.
  pose proof (uniq_loop_None (size used) used base 0 E) as Hall.
  set (cands := candidate base <$> seq 1 (S (size used))).
  assert (NoDup cands) as Hnd.
  { apply NoDup_fmap_2; [|apply NoDup_seq]. intros i j. apply candidate_inj. }
  assert (list_to_set cands ⊆ used) as Hsub.
  { intros s. rewrite elem_of_list_to_set. unfold cands.
    intros (j & -> & Hj%elem_of_seq)%list_elem_of_fmap. apply Hall. lia. }
  apply subseteq_size in Hsub.
  rewrite size_list_to_set in Hsub by done.
  unfold cands in Hsub. rewrite length_fmap, length_seq in Hsub. lia.
Qed.

Lemma sanitize_unfold used raw :
  _sanitize_and_uniq_tool_name used raw =
  match uniq_loop (size used) used (base_of raw) 1 (base_of raw) with
  | Some s => Some (s, {[ s ]} ∪ used)
  | None => None
  end.
Proof. reflexivity. Qed.

(** What a call returns and how it changes the set. *)
Lemma sanitize_spec used raw :
  ∃ k, 1 ≤ k
    ∧ _sanitize_and_uniq_tool_name used raw
      = Some (candidate (base_of raw) k, {[ candidate (base_of raw) k ]} ∪ used)
    ∧ (candidate (base_of raw) k ∉ used)
    ∧ ∀ j, 1 ≤ j < k → candidate (base_of raw) j ∈ used.
Proof.
  rewrite sanitize_unfold.
  destruct (uniq_loop_total used (base_of raw)) as [s Hs].
  rewrite Hs. apply (uniq_loop_Some _ _ _ 0) in Hs as (k & ? & -> & ? & ?).
  exists k. by split_and!.
Qed.

End SanitizerFacts.

(** ** The tool calls of a round *)

Section CallFacts.
Import WebMCPAgent Trace.

Variable json_loads : string -> option pyval.
Variable py_str : pyval -> string.
Variable tools : list tool.

Local Abbreviation run_tool_call := (run_tool_call json_loads py_str tools).
Local Abbreviation run_tool_calls := (run_tool_calls json_loads py_str tools).
Local Abbreviation call_alone := (call_alone json_loads py_str tools).
Local Abbreviation call_outcome := (call_outcome json_loads py_str tools).

Lemma read_tool_call_eta i tool_call :
  read_tool_call i tool_call
  = (tool_id_of i tool_call, tool_name_of i tool_call,
     tool_args_raw_of i tool_call).
Proof.
  unfold tool_id_of, tool_name_of, tool_args_raw_of.
  by destruct (read_tool_call i tool_call) as [[??]?].
Qed.

(** A call only appends to the logs of the state it runs in. *)
Lemma run_tool_call_frame i n tool_call st :
  shared_history (run_tool_call i n tool_call st)
  = shared_history st ++ shared_history (call_alone i n tool_call)
  ∧ yielded (run_tool_call i n tool_call st)
    = yielded st ++ yielded (call_alone i n tool_call)
  ∧ invocations (run_tool_call i n tool_call st)
    = invocations st ++ invocations (call_alone i n tool_call)
  ∧ stdout (run_tool_call i n tool_call st)
    = stdout st ++ stdout (call_alone i n tool_call)
  ∧ requests (run_tool_call i n tool_call st) = requests st
  ∧ session_ctx (run_tool_call i n tool_call st) = session_ctx st.
Proof.
  unfold Trace.call_alone, WebMCPAgent.run_tool_call.
  rewrite read_tool_call_eta.
  destruct (find_tool tools _) as [target|]; [destruct (ainvoke target _)|];
    simpl; rewrite ?app_nil_r, <-?app_assoc; done.
Qed.

(** The events and the transcript entry of a call, by its outcome. *)
Lemma call_alone_outcome i n tool_call :
  ∃ entry,
    shared_history (call_alone i n tool_call) = [entry]
    ∧ call_outcome i n tool_call (yielded (call_alone i n tool_call)) entry.
Proof.
  unfold Trace.call_alone, WebMCPAgent.run_tool_call.
  rewrite read_tool_call_eta.
  destruct (find_tool tools _) as [target|] eqn:Hfind;
    [destruct (ainvoke target _) as [result|e] eqn:Hinv|];
    simpl; eexists; (split; [reflexivity|]).
  - by eapply call_returned.
  - by eapply call_raised.
  - by eapply call_not_found.
Qed.

Lemma call_alone_invocations i n tool_call :
  invocations (call_alone i n tool_call)
  = match find_tool tools (tool_name_of i tool_call) with
    | Some _ => [(tool_name_of i tool_call,
                  parsed_args_of json_loads py_str i tool_call)]
    | None => []
    end.
Proof.
  unfold Trace.call_alone, WebMCPAgent.run_tool_call.
  rewrite read_tool_call_eta.
  destruct (find_tool tools _) as [target|]; [destruct (ainvoke target _)|];
    done.
Qed.

Lemma run_tool_calls_frame i n tool_calls st :
  shared_history (run_tool_calls i n tool_calls st)
  = shared_history st ++ calls_messages json_loads py_str tools i n tool_calls
  ∧ yielded (run_tool_calls i n tool_calls st)
    = yielded st ++ calls_events json_loads py_str tools i n tool_calls
  ∧ invocations (run_tool_calls i n tool_calls st)
    = invocations st
      ++ calls_invocations json_loads py_str tools i n tool_calls
  ∧ stdout st `prefix_of` stdout (run_tool_calls i n tool_calls st)
  ∧ requests (run_tool_calls i n tool_calls st) = requests st
  ∧ session_ctx (run_tool_calls i n tool_calls st) = session_ctx st.
Proof.
  revert i st. induction tool_calls as [|tool_call rest IH]; intros i st; simpl.
  - by rewrite !app_nil_r.
  - destruct (IH (S i) (run_tool_call i n tool_call st))
      as (-> & -> & -> & Hout & -> & ->).
    destruct (run_tool_call_frame i n tool_call st)
      as (-> & -> & -> & Hout1 & -> & ->).
    rewrite <-!app_assoc. split_and!; try done.
    etrans; [|exact Hout]. rewrite Hout1. by apply prefix_app_r.
Qed.

(** One entry and one pair of events per intent, in the order of the
    intents. *)
Lemma calls_outcomes i n tool_calls :
  ∃ outs : list (list event * message),
    length outs = length tool_calls
    ∧ calls_events json_loads py_str tools i n tool_calls = concat (fst <$> outs)
    ∧ calls_messages json_loads py_str tools i n tool_calls = snd <$> outs
    ∧ ∀ j tool_call out,
        tool_calls !! j = Some tool_call → outs !! j = Some out →
        call_outcome (i + j) n tool_call out.1 out.2.
Proof.
  revert i. induction tool_calls as [|tool_call rest IH]; intros i; simpl.
  - exists []. by split_and!.
  - destruct (IH (S i)) as (outs & Hlen & -> & -> & Hall).
    destruct (call_alone_outcome i n tool_call) as (entry & -> & Hout).
    exists ((yielded (call_alone i n tool_call), entry) :: outs).
    split_and!; simpl; try done; [by rewrite Hlen|].
    intros [|j] tc out; simpl.
    + intros [= <-] [= <-]. by rewrite Nat.add_0_r.
    + intros ??. replace (i + S j) with (S i + j) by lia. by apply Hall.
Qed.

Lemma calls_invocations_resolved i n tool_calls :
  calls_invocations json_loads py_str tools i n tool_calls
  = resolved_calls json_loads py_str tools i tool_calls.
Proof.
  revert i. induction tool_calls as [|tool_call rest IH]; intros i; simpl;
    [done|].
  rewrite call_alone_invocations, IH. by destruct (find_tool tools _).
Qed.

End CallFacts.

(** ** Reading the stream *)

Section StreamFacts.
Import WebMCPAgent Trace.

(** What the stream loop leaves in the locals of the round and in the
    state, from any values of the locals. *)
Lemma consume_spec s p st :
  buffered_chunks (consume s p st).1 = buffered_chunks p ++ fragments s
  ∧ response_started (consume s p st).1
    = match fragments s with [] => response_started p | _ :: _ => true end
  ∧ tool_calls_check (consume s p st).1
    = (if stream_raises s then None
       else (reported s (tool_calls_check p, content_preview p)).1)
  ∧ content_preview (consume s p st).1
    = (if stream_raises s then ""
       else (reported s (tool_calls_check p, content_preview p)).2)
  ∧ yielded (consume s p st).2
    = yielded st ++ (if response_started p
                     then ai_response_chunk <$> fragments s
                     else forwarded (fragments s))
  ∧ shared_history (consume s p st).2 = shared_history st
  ∧ invocations (consume s p st).2 = invocations st
  ∧ requests (consume s p st).2 = requests st
  ∧ stdout st `prefix_of` stdout (consume s p st).2
  ∧ session_ctx (consume s p st).2 = session_ctx st.
Proof.
  revert p st. induction s as [|e|ev rest IH]; intros p st.
  - simpl. rewrite app_nil_r. destruct (response_started p); simpl;
      by rewrite app_nil_r.
  - simpl. rewrite app_nil_r. destruct (response_started p); simpl;
      rewrite app_nil_r; split_and!; try done; by apply prefix_app_r.
  - destruct ev as [[[piece|]|]|tcs c|other]; simpl; try apply IH;
      [|match goal with |- context [consume rest ?p' ?st'] =>
          exact (IH p' st') end].
    destruct (String.eqb piece "") eqn:Hpiece; simpl; [apply IH|].
    match goal with |- context [consume rest ?p' ?st'] =>
      destruct (IH p' st') as (-> & -> & -> & -> & -> & -> & -> & -> & Hout & ->)
    end.
    simpl. rewrite <-!app_assoc. split_and!; try done.
    + by destruct (fragments rest).
    + by destruct (response_started p); simpl; rewrite <-?app_assoc.
    + by destruct (response_started p).
    + by destruct (response_started p).
    + by destruct (response_started p).
    + etrans; [|exact Hout]. destruct (response_started p); simpl;
        by apply prefix_app_r.
    + by destruct (response_started p).
Qed.

(** From the initial locals of a round. *)
Lemma consume_probe0 s st :
  buffered_chunks (consume s probe0 st).1 = fragments s
  ∧ response_started (consume s probe0 st).1
    = match fragments s with [] => false | _ :: _ => true end
  ∧ tool_calls_check (consume s probe0 st).1
    = (if stream_raises s then None else reported_tool_calls s)
  ∧ content_preview (consume s probe0 st).1
    = (if stream_raises s then "" else reported_content s)
  ∧ yielded (consume s probe0 st).2 = yielded st ++ forwarded (fragments s)
  ∧ shared_history (consume s probe0 st).2 = shared_history st
  ∧ invocations (consume s probe0 st).2 = invocations st
  ∧ requests (consume s probe0 st).2 = requests st
  ∧ stdout st `prefix_of` stdout (consume s probe0 st).2
  ∧ session_ctx (consume s probe0 st).2 = session_ctx st.
Proof. exact (consume_spec s probe0 st). Qed.

(** The events of the finalization, by the locals of the round. *)
Lemma finalize_spec p st :
  let final_text :=
    match buffered_chunks p with
    | [] => content_preview p
    | _ :: _ => String.concat "" (buffered_chunks p)
    end in
  yielded (finalize p st)
  = yielded st
    ++ (if response_started p then [ai_response_end final_text]
        else ai_response_start "AI正在回复..."
             :: (if String.eqb final_text "" then []
                 else [ai_response_chunk final_text])
             ++ [ai_response_end final_text])
  ∧ shared_history (finalize p st) = shared_history st
  ∧ invocations (finalize p st) = invocations st
  ∧ requests (finalize p st) = requests st
  ∧ stdout st `prefix_of` stdout (finalize p st)
  ∧ session_ctx (finalize p st) = session_ctx st.
Proof.
  unfold finalize. simpl.
  destruct (response_started p); simpl; [done|].
  destruct (String.eqb _ _); simpl; rewrite <-?app_assoc; split_and!;
    try done.
  by apply prefix_app_r.
Qed.

End StreamFacts.

(** ** Rounds and the loop *)

Section RoundFacts.
Import WebMCPAgent Trace.

Variable json_loads : string -> option pyval.
Variable py_str : pyval -> string.
Variable now : nat -> datetime.
Variable llm_tools : nat -> list message -> astream.
Variable tools : list tool.

Local Abbreviation chat_round := (chat_round json_loads py_str now llm_tools tools).
Local Abbreviation while_rounds := (while_rounds json_loads py_str now llm_tools tools).
Local Abbreviation chat_stream := (chat_stream json_loads py_str now llm_tools tools).
Local Abbreviation calls_events := (calls_events json_loads py_str tools).
Local Abbreviation calls_messages := (calls_messages json_loads py_str tools).
Local Abbreviation calls_invocations := (calls_invocations json_loads py_str tools).
Local Abbreviation resolved_calls := (resolved_calls json_loads py_str tools).
Local Abbreviation stream_of := (stream_of now llm_tools).

Lemma count_app kind l1 l2 :
  count kind (l1 ++ l2) = count kind l1 + count kind l2.
Proof. induction l1 as [|e l1 IH]; simpl; [done|]. rewrite IH. lia. Qed.

Lemma count_chunks_other kind frags :
  (∀ c, kind (ai_response_chunk c) = false) →
  count kind (ai_response_chunk <$> frags) = 0.
Proof. intros Hk. induction frags; simpl; [done|]. by rewrite Hk. Qed.

Lemma count_chunks frags :
  count is_response_chunk (ai_response_chunk <$> frags) = length frags.
Proof. induction frags; simpl; [done|]. by f_equal. Qed.

Lemma chunk_contents_app l1 l2 :
  chunk_contents (l1 ++ l2) = chunk_contents l1 ++ chunk_contents l2.
Proof.
  induction l1 as [|e l1 IH]; simpl; [done|]. destruct e; simpl; by rewrite ?IH.
Qed.

Lemma chunk_contents_chunks frags :
  chunk_contents (ai_response_chunk <$> frags) = frags.
Proof. induction frags; simpl; [done|]. by f_equal. Qed.

Lemma count_forwarded_other kind frags :
  (∀ c, kind (ai_response_chunk c) = false) →
  (∀ c, kind (ai_response_start c) = false) →
  count kind (forwarded frags) = 0.
Proof.
  intros Hc Hs. destruct frags; simpl; [done|].
  rewrite Hs, Hc. simpl. by apply count_chunks_other.
Qed.

(** The events of tool calls are [tool_start], [tool_end] and
    [tool_error] events. *)
Lemma count_calls_events kind i n tool_calls :
  (∀ a b c d, kind (tool_start a b c d) = false) →
  (∀ a b c, kind (tool_end a b c) = false) →
  (∀ a b, kind (tool_error a b) = false) →
  count kind (calls_events i n tool_calls) = 0.
Proof.
  intros Hs He Herr. revert i.
  induction tool_calls as [|tool_call rest IH]; intros i; simpl; [done|].
  rewrite count_app, IH.
  destruct (call_alone_outcome json_loads py_str tools i n tool_call)
    as (entry & _ & Hout).
  destruct Hout; simpl; by rewrite ?Hs, ?He, ?Herr.
Qed.

Lemma length_calls_messages i n tool_calls :
  length (calls_messages i n tool_calls) = length tool_calls.
Proof.
  destruct (calls_outcomes json_loads py_str tools i n tool_calls)
    as (outs & Hlen & _ & -> & _).
  by rewrite length_fmap.
Qed.

(** *** One round *)

Lemma chat_round_unfold round_index st :
  let st1 :=
    record_request (request_of now round_index (shared_history st))
      (print ("🧠 第 " +:+ pretty round_index
              +:+ " 轮推理 (双实例：判定工具 + 纯流式回答)...") st) in
  let r := consume (stream_of round_index st) probe0 st1 in
  chat_round round_index st = decide_round json_loads py_str tools r.1 r.2.
Proof.
  simpl. unfold WebMCPAgent.chat_round, Trace.stream_of, request_of. simpl.
  by destruct (consume _ _ _).
Qed.

(** A round whose stream ends normally and reports intents. *)
Lemma tool_round round_index st tcs :
  stream_raises (stream_of round_index st) = false →
  reported_tool_calls (stream_of round_index st) = Some tcs →
  tcs ≠ [] →
  ∃ st',
    chat_round round_index st = (st', Continue)
    ∧ shared_history st'
      = shared_history st
        ++ AssistantMessage "" (Some tcs)
           :: calls_messages 1 (length tcs) tcs
    ∧ yielded st'
      = yielded st ++ forwarded (fragments (stream_of round_index st))
        ++ tool_plan (plan_text (length tcs)) (length tcs)
           :: calls_events 1 (length tcs) tcs
    ∧ invocations st'
      = invocations st ++ calls_invocations 1 (length tcs) tcs
    ∧ requests st'
      = requests st ++ [request_of now round_index (shared_history st)]
    ∧ stdout st `prefix_of` stdout st'
    ∧ (fragments (stream_of round_index st) ≠ [] →
       conflict_warning ∈ stdout st')
    ∧ session_ctx st' = session_ctx st.
Proof.
  intros Hraise Hrep Hne. rewrite chat_round_unfold. simpl.
  set (st1 := record_request _ _).
  destruct (consume_probe0 (stream_of round_index st) st1)
    as (Hbuf & Hstart & Hcheck & Hprev & Hy & Hh & Hi & Hr & Hout & Hs).
  rewrite Hraise in Hcheck, Hprev. rewrite Hrep in Hcheck.
  unfold decide_round. rewrite Hcheck.
  destruct tcs as [|tc tcs]; [done|].
  cbn [has_tool_calls exit_to_stream default from_option id].
  eexists. split; [reflexivity|].
  match goal with |- context [run_tool_calls _ _ _ ?i ?n ?l ?s] =>
    destruct (run_tool_calls_frame json_loads py_str tools i n l s)
      as (-> & -> & -> & Hout2 & -> & ->)
  end.
  assert (stdout st `prefix_of` stdout st1) as Hout0.
  { subst st1. simpl. by apply prefix_app_r. }
  destruct (response_started (consume _ probe0 st1).1) eqn:Hst; simpl;
    rewrite ?Hy, ?Hh, ?Hi, ?Hr, ?Hs, <-?app_assoc; simpl;
    (split_and!; try done).
  - etrans; [exact Hout0|]. etrans; [exact Hout|].
    etrans; [|exact Hout2]. simpl. by apply prefix_app_r.
  - intros _. eapply elem_of_prefix; [|exact Hout2]. simpl.
    apply elem_of_app. right. by apply list_elem_of_singleton.
  - etrans; [exact Hout0|]. etrans; [exact Hout|]. exact Hout2.
  - intros Hfr. rewrite Hstart in Hst.
    by destruct (fragments (stream_of round_index st)).
Qed.

(** A round whose stream raises, or ends without reporting intents. *)
Lemma final_round round_index st :
  let s := stream_of round_index st in
  has_tool_calls (if stream_raises s then None else reported_tool_calls s)
  = false →
  ∃ st',
    chat_round round_index st = (st', Return)
    ∧ shared_history st' = shared_history st
    ∧ yielded st'
      = yielded st ++ forwarded (fragments s)
        ++ match fragments s with
           | [] =>
               let final_text :=
                 if stream_raises s then "" else reported_content s in
               ai_response_start "AI正在回复..."
               :: (if String.eqb final_text "" then []
                   else [ai_response_chunk final_text])
               ++ [ai_response_end final_text]
           | _ :: _ => [ai_response_end (String.concat "" (fragments s))]
           end
    ∧ invocations st' = invocations st
    ∧ requests st'
      = requests st ++ [request_of now round_index (shared_history st)]
    ∧ stdout st `prefix_of` stdout st'
    ∧ session_ctx st' = session_ctx st.
Proof.
  intros s Hno. rewrite chat_round_unfold. simpl. fold s.
  set (st1 := record_request _ _).
  destruct (consume_probe0 s st1)
    as (Hbuf & Hstart & Hcheck & Hprev & Hy & Hh & Hi & Hr & Hout & Hs).
  unfold decide_round. rewrite Hcheck, Hno.
  eexists. split; [reflexivity|].
  destruct (finalize_spec (consume s probe0 st1).1 (consume s probe0 st1).2)
    as (-> & -> & -> & -> & Hout2 & ->).
  rewrite Hbuf, Hstart, Hprev, Hy, Hh, Hi, Hr, Hs, <-app_assoc.
  split_and!; try done.
  - by destruct (fragments s).
  - etrans; [|exact Hout2]. etrans; [|exact Hout].
    subst st1. simpl. by apply prefix_app_r.
Qed.

(** *** The loop *)

Lemma while_rounds_S fuel round_index st :
  while_rounds (S fuel) round_index st
  = if round_index <? max_rounds then
      match chat_round (S round_index) st with
      | (st', Continue) => while_rounds fuel (S round_index) st'
      | (st', Return) => Some st'
      end
    else Some (rounds_exhausted st).
Proof. reflexivity. Qed.

Lemma while_rounds_continue fuel round_index st st' :
  round_index < max_rounds →
  chat_round (S round_index) st = (st', Continue) →
  while_rounds (S fuel) round_index st = while_rounds fuel (S round_index) st'.
Proof.
  intros Hlt Hround. rewrite while_rounds_S, Hround.
  by apply Nat.ltb_lt in Hlt as ->.
Qed.

Lemma while_rounds_return fuel round_index st st' :
  round_index < max_rounds →
  chat_round (S round_index) st = (st', Return) →
  while_rounds (S fuel) round_index st = Some st'.
Proof.
  intros Hlt Hround. rewrite while_rounds_S, Hround.
  by apply Nat.ltb_lt in Hlt as ->.
Qed.

Lemma while_rounds_exhausted fuel round_index st :
  max_rounds ≤ round_index →
  while_rounds fuel round_index st = Some (rounds_exhausted st).
Proof.
  intros Hge. apply Nat.ltb_ge in Hge.
  destruct fuel; simpl; by rewrite Hge.
Qed.

(** The fuel is enough as soon as it covers the rounds that are left. *)
Lemma while_rounds_total fuel round_index st :
  max_rounds ≤ round_index + fuel →
  is_Some (while_rounds fuel round_index st).
Proof.
  revert round_index st. induction fuel as [|fuel IH]; intros r st Hle.
  - rewrite while_rounds_exhausted by lia. by eexists.
  - rewrite while_rounds_S. destruct (r <? max_rounds); [|by eexists].
    destruct (chat_round (S r) st) as [st' []]; [|by eexists].
    apply IH. lia.
Qed.

Lemma chat_stream_total user_input history session_id :
  is_Some (chat_stream user_input history session_id).
Proof. apply while_rounds_total. simpl. lia. Qed.

Lemma fold_history_append msgs st :
  shared_history (fold_left (λ st m, history_append m st) msgs st)
  = shared_history st ++ msgs
  ∧ yielded (fold_left (λ st m, history_append m st) msgs st) = yielded st
  ∧ invocations (fold_left (λ st m, history_append m st) msgs st)
    = invocations st
  ∧ requests (fold_left (λ st m, history_append m st) msgs st) = requests st.
Proof.
  revert st. induction msgs as [|m msgs IH]; intros st; simpl.
  - by rewrite app_nil_r.
  - destruct (IH (history_append m st)) as (-> & -> & -> & ->). simpl.
    by rewrite <-app_assoc.
Qed.

Lemma enter_loop_spec user_input history session_id :
  shared_history (enter_loop user_input history session_id)
  = history_messages history ++ [UserMessage user_input]
  ∧ yielded (enter_loop user_input history session_id)
    = [status "开始生成..."]
  ∧ invocations (enter_loop user_input history session_id) = []
  ∧ requests (enter_loop user_input history session_id) = [].
Proof.
  unfold enter_loop.
  match goal with |- context [fold_left _ ?l ?s] =>
    destruct (fold_history_append l s) as (-> & -> & -> & ->)
  end.
  by destruct (truthy_str session_id).
Qed.

(** Every round, of either kind, only appends to the transcript. *)
Lemma chat_round_appends round_index st :
  shared_history st `prefix_of` shared_history (chat_round round_index st).1
  ∧ requests (chat_round round_index st).1
    = requests st ++ [request_of now round_index (shared_history st)].
Proof.
  destruct (has_tool_calls
              (if stream_raises (stream_of round_index st) then None
               else reported_tool_calls (stream_of round_index st))) eqn:Hc.
  - destruct (stream_raises (stream_of round_index st)) eqn:Hr; [done|].
    destruct (reported_tool_calls (stream_of round_index st))
      as [[|tc tcs]|] eqn:Hrep; try done.
    destruct (tool_round round_index st (tc :: tcs))
      as (st' & -> & Hh & _ & _ & Hq & _); try done.
    simpl. rewrite Hh, Hq. split; [by apply prefix_app_r|done].
  - destruct (final_round round_index st Hc)
      as (st' & -> & Hh & _ & _ & Hq & _).
    simpl. by rewrite Hh, Hq.
Qed.


End RoundFacts.

(** ** The claims on [chat_stream] *)

Section Claims.
Import WebMCPAgent Trace.

Variable json_loads : string -> option pyval.
Variable py_str : pyval -> string.
Variable now : nat -> datetime.
Variable llm_tools : nat -> list message -> astream.
Variable tools : list tool.

Local Abbreviation chat_round := (chat_round json_loads py_str now llm_tools tools).
Local Abbreviation while_rounds := (while_rounds json_loads py_str now llm_tools tools).
Local Abbreviation chat_stream := (chat_stream json_loads py_str now llm_tools tools).
Local Abbreviation calls_events := (calls_events json_loads py_str tools).
Local Abbreviation calls_messages := (calls_messages json_loads py_str tools).
Local Abbreviation resolved_calls := (resolved_calls json_loads py_str tools).
Local Abbreviation call_outcome := (call_outcome json_loads py_str tools).
Local Abbreviation stream_of := (stream_of now llm_tools).

Lemma calls_messages_tool i n tool_calls :
  Forall (λ m, is_tool_message m = true) (calls_messages i n tool_calls).
Proof.
  destruct (calls_outcomes json_loads py_str tools i n tool_calls)
    as (outs & Hlen & _ & -> & Hall).
  apply Forall_lookup_2. intros j m Hm.
  apply list_lookup_fmap_Some in Hm as (out & -> & Hout).
  destruct (lookup_lt_is_Some_2 tool_calls j) as [tc Htc].
  { rewrite <-Hlen. by eapply lookup_lt_Some. }
  by destruct (Hall j tc out Htc Hout).
Qed.

(** C1. A round whose terminal event reports tool-call intents is a tool
    round whatever was forwarded before. Every intent is executed: the
    intents whose name is in the registry are invoked with their parsed
    arguments, and what [ainvoke] returned, or the error string when it
    raised or when the name is unknown, is the content of the tool entry of
    the intent. The transcript gets the assistant entry with the intents
    and these tool entries, in order; the events of the tool calls follow
    the fragments already forwarded and no [ai_response_end] is yielded;
    the round ends with [continue], so that the loop goes to its next
    iteration on the new transcript (a new round, as long as the bound on
    the rounds allows one). When fragments were forwarded, the only trace of
    the conflict is the warning printed. *)
Theorem tool_round_despite_forwarded_text (round_index : nat) (st : state)
    (tcs : list tool_call) :
  round_index < max_rounds →
  stream_raises (stream_of (S round_index) st) = false →
  reported_tool_calls (stream_of (S round_index) st) = Some tcs →
  tcs ≠ [] →
  ∃ st' (outs : list (list event * message)),
    chat_round (S round_index) st = (st', Continue)
    ∧ invocations st' = invocations st ++ resolved_calls 1 tcs
    ∧ length outs = length tcs
    ∧ (∀ j tool_call out,
         tcs !! j = Some tool_call → outs !! j = Some out →
         call_outcome (S j) (length tcs) tool_call out.1 out.2
         ∧ (∀ target result,
              find_tool tools (tool_name_of (S j) tool_call) = Some target →
              ainvoke target
                (parsed_args_of json_loads py_str (S j) tool_call)
              = returns result →
              out.1 = [tool_start (tool_id_of (S j) tool_call)
                         (tool_name_of (S j) tool_call)
                         (parsed_args_of json_loads py_str (S j) tool_call)
                         (progress_of (S j) (length tcs));
                       tool_end (tool_id_of (S j) tool_call)
                         (tool_name_of (S j) tool_call) result]
              ∧ out.2 = ToolMessage (tool_id_of (S j) tool_call)
                          (tool_name_of (S j) tool_call) result)
         ∧ (∀ target e,
              find_tool tools (tool_name_of (S j) tool_call) = Some target →
              ainvoke target
                (parsed_args_of json_loads py_str (S j) tool_call)
              = raises e →
              out.2 = ToolMessage (tool_id_of (S j) tool_call)
                        (tool_name_of (S j) tool_call)
                        (error_content (failure_msg e)))
         ∧ (find_tool tools (tool_name_of (S j) tool_call) = None →
            out.2 = ToolMessage (tool_id_of (S j) tool_call)
                      (tool_name_of (S j) tool_call)
                      (error_content
                         (not_found_msg (tool_name_of (S j) tool_call)))))
    ∧ shared_history st'
      = shared_history st ++ AssistantMessage "" (Some tcs) :: (snd <$> outs)
    ∧ Forall (λ m, is_tool_message m = true) (snd <$> outs)
    ∧ yielded st'
      = yielded st ++ forwarded (fragments (stream_of (S round_index) st))
        ++ tool_plan (plan_text (length tcs)) (length tcs)
           :: concat (fst <$> outs)
    ∧ count is_response_end (concat (fst <$> outs)) = 0
    ∧ (fragments (stream_of (S round_index) st) ≠ [] →
       conflict_warning ∈ stdout st')
    ∧ (∀ fuel,
         while_rounds (S fuel) round_index st
         = while_rounds fuel (S round_index) st')
    ∧ (S round_index < max_rounds →
       ∀ fuel,
         while_rounds (S (S fuel)) round_index st
         = match chat_round (S (S round_index)) st' with
           | (st'', Continue) => while_rounds fuel (S (S round_index)) st''
           | (st'', Return) => Some st''
           end)
    ∧ requests (chat_round (S (S round_index)) st').1
      = requests st'
        ++ [request_of now (S (S round_index)) (shared_history st')].
Proof.
  intros Hlt Hraise Hrep Hne.
  destruct (tool_round json_loads py_str now llm_tools tools
              (S round_index) st tcs Hraise Hrep Hne)
    as (st' & Hround & Hh & Hy & Hi & Hq & Hout & Hwarn & Hs).
  destruct (calls_outcomes json_loads py_str tools 1 (length tcs) tcs)
    as (outs & Hlen & Hev & Hmsg & Hall).
  exists st', outs.
  split_and!; try done.
  - by rewrite Hi, calls_invocations_resolved.
  - intros j tool_call out Htc Hout'.
    specialize (Hall j tool_call out Htc Hout'). simpl in Hall.
    split; [done|].
    destruct Hall as [target result Hfind Hinv|Hfind|target e Hfind Hinv];
      simpl; split_and!.
    + intros t r Hfind' Hinv'. rewrite Hfind in Hfind'.
      injection Hfind' as <-. rewrite Hinv in Hinv'. by injection Hinv' as <-.
    + intros t e' Hfind' Hinv'. rewrite Hfind in Hfind'.
      injection Hfind' as <-. by rewrite Hinv in Hinv'.
    + by rewrite Hfind.
    + intros t r Hfind'. by rewrite Hfind in Hfind'.
    + intros t e' Hfind'. by rewrite Hfind in Hfind'.
    + done.
    + intros t r Hfind' Hinv'. rewrite Hfind in Hfind'.
      injection Hfind' as <-. by rewrite Hinv in Hinv'.
    + intros t e' Hfind' Hinv'. rewrite Hfind in Hfind'.
      injection Hfind' as <-. rewrite Hinv in Hinv'. by injection Hinv' as <-.
    + by rewrite Hfind.
  - by rewrite Hh, Hmsg.
  - rewrite <-Hmsg. apply calls_messages_tool.
  - by rewrite Hy, Hev.
  - rewrite <-Hev. by apply count_calls_events.
  - intros fuel. by apply while_rounds_continue.
  - intros Hlt' fuel.
    rewrite (while_rounds_continue _ _ _ _ _ _ _ _ st' Hlt Hround).
    rewrite while_rounds_S. by apply Nat.ltb_lt in Hlt' as ->.
  - apply chat_round_appends.
Qed.





(** With a model that reports intents in every round, [n] more rounds run
    from an index that leaves [n] rounds, and the loop is then left by its
    condition. *)
Lemma always_tools_rounds n round_index st :
  (∀ i messages,
     stream_raises (llm_tools i messages) = false
     ∧ has_tool_calls (reported_tool_calls (llm_tools i messages)) = true) →
  round_index + n = max_rounds →
  ∃ st' events,
    while_rounds n round_index st = Some (rounds_exhausted st')
    ∧ length (requests st') = length (requests st) + n
    ∧ yielded st' = yielded st ++ events
    ∧ count is_response_end events = 0
    ∧ count is_error events = 0.
Proof.
  intros Hllm. revert round_index st.
  induction n as [|n IH]; intros r st Hsum.
  - exists st, []. rewrite while_rounds_exhausted by lia.
    rewrite app_nil_r. by split_and!.
  - destruct (Hllm (S r) (request_of now (S r) (shared_history st)))
      as [Hraise Hhas].
    destruct (reported_tool_calls _) as [[|tc tcs]|] eqn:Hrep; try done.
    destruct (tool_round json_loads py_str now llm_tools tools
                (S r) st (tc :: tcs) Hraise Hrep)
      as (st1 & Hround & _ & Hy & _ & Hq & _); [done|].
    destruct (IH (S r) st1) as (st' & events & Hloop & Hlen & Hy' & He & Herr);
      [lia|].
    exists st'. eexists.
    rewrite (while_rounds_continue _ _ _ _ _ n r st st1) by (done || lia).
    split_and!; [done| |by rewrite Hy', Hy, <-!app_assoc| |].
    + rewrite Hlen, Hq, length_app. simpl. lia.
    + rewrite !count_app, He, count_forwarded_other by done.
      cbn [count is_response_end]. by rewrite count_calls_events.
    + rewrite !count_app, Herr, count_forwarded_other by done.
      cbn [count is_error]. by rewrite count_calls_events.
Qed.

(** C4. The loop runs at most 25 rounds. With a model that reports tool-call
    intents in every round, exactly 25 requests are sent to the model, no
    [ai_response_end] is yielded in these rounds, and the run ends with the
    round-exhaustion message, sent as an ordinary response (start, chunk,
    end) and with no [error] event. Whatever the model does, the run
    terminates. *)
Theorem always_tools_runs_25_rounds (user_input : string)
    (history : list history_record) (session_id : option string) :
  (∀ i messages,
     stream_raises (llm_tools i messages) = false
     ∧ has_tool_calls (reported_tool_calls (llm_tools i messages)) = true) →
  ∃ st events,
    chat_stream user_input history session_id = Some st
    ∧ length (requests st) = 25
    ∧ yielded st
      = status "开始生成..." :: events
        ++ [ai_response_start "AI正在回复...";
            ai_response_chunk exhaustion_text;
            ai_response_end exhaustion_text]
    ∧ count is_response_end events = 0
    ∧ count is_error (yielded st) = 0
    ∧ ∀ other_llm,
        is_Some (WebMCPAgent.chat_stream json_loads py_str now other_llm tools
                   user_input history session_id).
Proof.
  intros Hllm.
  destruct (always_tools_rounds max_rounds 0
              (enter_loop user_input history session_id) Hllm eq_refl)
    as (st' & events & Hloop & Hlen & Hy & He & Herr).
  destruct (enter_loop_spec user_input history session_id)
    as (_ & Hy0 & _ & Hq0).
  exists (rounds_exhausted st'), events.
  assert (yielded (rounds_exhausted st')
          = status "开始生成..." :: events
            ++ [ai_response_start "AI正在回复...";
                ai_response_chunk exhaustion_text;
                ai_response_end exhaustion_text]) as Hfinal.
  { simpl. rewrite Hy, Hy0. simpl. by rewrite <-!app_assoc. }
  split_and!; try done.
  - simpl. rewrite Hlen, Hq0. done.
  - rewrite Hfinal. simpl. rewrite count_app, Herr. done.
  - intros other_llm. apply chat_stream_total.
Qed.

(** C5. A stream that ends normally without reporting intents is the
    final answer. When it carried fragments, the round yields one
    [ai_response_start], one [ai_response_chunk] per fragment, whose
    contents are the fragments, and one [ai_response_end] with their
    concatenation; when it carried none, it yields [ai_response_start], one
    chunk with the reported content if that is not empty, and
    [ai_response_end]. No tool is invoked, the transcript is unchanged and
    the loop returns; when the round is the first one, these events follow
    the [status] event and are all that [chat_stream] yields. *)
Theorem content_only_answer (round_index : nat) (st : state) :
  round_index < max_rounds →
  stream_raises (stream_of (S round_index) st) = false →
  has_tool_calls (reported_tool_calls (stream_of (S round_index) st))
  = false →
  ∃ st' events,
    chat_round (S round_index) st = (st', Return)
    ∧ (∀ fuel, while_rounds (S fuel) round_index st = Some st')
    ∧ yielded st' = yielded st ++ events
    ∧ invocations st' = invocations st
    ∧ shared_history st' = shared_history st
    ∧ events
      = match fragments (stream_of (S round_index) st) with
        | [] =>
            let text := reported_content (stream_of (S round_index) st) in
            ai_response_start "AI正在回复..."
            :: (if String.eqb text "" then [] else [ai_response_chunk text])
            ++ [ai_response_end text]
        | _ :: _ =>
            let frags := fragments (stream_of (S round_index) st) in
            ai_response_start "AI正在回复..."
            :: (ai_response_chunk <$> frags)
            ++ [ai_response_end (String.concat "" frags)]
        end
    ∧ count is_response_start events = 1
    ∧ count is_response_end events = 1
    ∧ (fragments (stream_of (S round_index) st) ≠ [] →
       count is_response_chunk events
       = length (fragments (stream_of (S round_index) st))
       ∧ chunk_contents events = fragments (stream_of (S round_index) st))
    ∧ (∀ user_input history session_id,
         st = enter_loop user_input history session_id →
         round_index = 0 →
         chat_stream user_input history session_id = Some st'
         ∧ yielded st' = status "开始生成..." :: events
         ∧ invocations st' = []).
Proof.
  intros Hlt Hraise Hno.
  destruct (final_round json_loads py_str now llm_tools tools
              (S round_index) st)
    as (st' & Hround & Hh & Hy & Hi & _); [by rewrite Hraise|].
  rewrite Hraise in Hy.
  exists st'. eexists. split; [done|].
  split; [intros fuel; by apply while_rounds_return|].
  split; [exact Hy|]. split; [done|]. split; [done|].
  destruct (fragments (stream_of (S round_index) st)) as [|c frags] eqn:Hfr;
    simpl.
  - split_and!; try done.
    + by destruct (String.eqb _ _).
    + by destruct (String.eqb _ _).
    + intros u h sid -> ->.
      destruct (enter_loop_spec u h sid) as (_ & Hy0 & Hi0 & _).
      split_and!.
      * by apply (while_rounds_return _ _ _ _ _ 24 0).
      * rewrite Hy, Hy0. done.
      * by rewrite Hi.
  - split_and!; try done.
    + rewrite count_app, count_chunks_other by done. done.
    + rewrite count_app, count_chunks_other by done. done.
    + intros _. rewrite count_app, chunk_contents_app, count_chunks,
        chunk_contents_chunks. simpl. rewrite app_nil_r. split; [lia|done].
    + intros u h sid -> ->.
      destruct (enter_loop_spec u h sid) as (_ & Hy0 & Hi0 & _).
      split_and!.
      * by apply (while_rounds_return _ _ _ _ _ 24 0).
      * rewrite Hy, Hy0. done.
      * by rewrite Hi.
Qed.

(** C2, as the code has it. When the stream raises, the exception is
    caught in the round and any intents reported before it are dropped:
    no tool is invoked, the transcript is unchanged and the round is
    finalized as a round without tools. The final text is the concatenation
    of the fragments forwarded before the exception, hence empty when none
    was forwarded: the round then yields [ai_response_start] and
    [ai_response_end] with the empty string. *)
Theorem stream_failure_round (round_index : nat) (st : state) :
  round_index < max_rounds →
  stream_raises (stream_of (S round_index) st) = true →
  ∃ st',
    chat_round (S round_index) st = (st', Return)
    ∧ (∀ fuel, while_rounds (S fuel) round_index st = Some st')
    ∧ invocations st' = invocations st
    ∧ shared_history st' = shared_history st
    ∧ yielded st'
      = yielded st ++ forwarded (fragments (stream_of (S round_index) st))
        ++ match fragments (stream_of (S round_index) st) with
           | [] => [ai_response_start "AI正在回复..."; ai_response_end ""]
           | _ :: _ =>
               [ai_response_end
                  (String.concat ""
                     (fragments (stream_of (S round_index) st)))]
           end
    ∧ (fragments (stream_of (S round_index) st) = [] →
       forwarded (fragments (stream_of (S round_index) st)) = []).
Proof.
  intros Hlt Hraise.
  destruct (final_round json_loads py_str now llm_tools tools
              (S round_index) st)
    as (st' & Hround & Hh & Hy & Hi & _); [by rewrite Hraise|].
  rewrite Hraise in Hy. exists st'.
  split_and!; try done.
  - intros fuel. by apply while_rounds_return.
  - by intros ->.
Qed.

(** C10. When the stream raises after fragments were forwarded, the round
    yields, after the [ai_response_start] and the chunks already forwarded,
    a single [ai_response_end] that carries the concatenation of these
    fragments, and returns. *)
Theorem stream_failure_after_fragments (round_index : nat) (st : state) :
  round_index < max_rounds →
  stream_raises (stream_of (S round_index) st) = true →
  fragments (stream_of (S round_index) st) ≠ [] →
  ∃ st' events,
    chat_round (S round_index) st = (st', Return)
    ∧ (∀ fuel, while_rounds (S fuel) round_index st = Some st')
    ∧ yielded st' = yielded st ++ events
    ∧ events
      = ai_response_start "AI正在回复..."
        :: (ai_response_chunk <$> fragments (stream_of (S round_index) st))
        ++ [ai_response_end
              (String.concat "" (fragments (stream_of (S round_index) st)))]
    ∧ count is_response_start events = 1
    ∧ count is_response_chunk events
      = length (fragments (stream_of (S round_index) st))
    ∧ count is_response_end events = 1
    ∧ chunk_contents events = fragments (stream_of (S round_index) st).
Proof.
  intros Hlt Hraise Hfr.
  destruct (final_round json_loads py_str now llm_tools tools
              (S round_index) st)
    as (st' & Hround & Hh & Hy & Hi & _); [by rewrite Hraise|].
  exists st'. eexists. split; [done|].
  split; [intros fuel; by apply while_rounds_return|].
  split; [exact Hy|].
  destruct (fragments (stream_of (S round_index) st)) as [|c frags]; [done|].
  simpl. split_and!; try done.
  - rewrite count_app, count_chunks_other by done. done.
  - rewrite count_app, count_chunks. simpl. lia.
  - rewrite count_app, count_chunks_other by done. done.
  - rewrite chunk_contents_app, chunk_contents_chunks. simpl.
    by rewrite app_nil_r.
Qed.

End Claims.

(** ** The claims on the sanitizer, the configuration and the arguments *)

Section OtherClaims.
Import WebMCPAgent Trace Sanitizer MCPConfig.

Lemma base_of_fallback raw :
  base_of raw = if decide (raw = "") then "tool" else re_sub_outside_class raw.
Proof.
  unfold base_of. case_decide as Hraw.
  - by subst.
  - destruct (String.eqb _ _) eqn:E; [|done].
    apply String.eqb_eq in E.
    pose proof (re_sub_length raw) as Hlen. rewrite E in Hlen.
    by destruct raw.
Qed.

(** C8. For every raw name and every set of names in use, the call returns
    a name that is not empty, has all its characters in [[A-Za-z0-9_-]], is
    the base string (["tool"] for the empty input) or the base string with
    the suffix [_index] for the first [index], counted from 2, that is not
    in use, and is added to the set; the name was not in use before, so a
    later call on the same agent, whatever its input, returns another
    name. *)
Theorem sanitize_and_uniq_tool_name_contract (used : gset string)
    (raw : string) :
  ∃ sanitized index,
    _sanitize_and_uniq_tool_name used raw
    = Some (sanitized, {[ sanitized ]} ∪ used)
    ∧ sanitized ≠ ""
    ∧ string_forallb in_class sanitized = true
    ∧ base_of raw
      = (if decide (raw = "") then "tool" else re_sub_outside_class raw)
    ∧ 1 ≤ index
    ∧ (index = 1 → sanitized = base_of raw)
    ∧ (2 ≤ index →
       sanitized = base_of raw +:+ "_" +:+ pretty index
       ∧ base_of raw ∈ used
       ∧ ∀ j, 2 ≤ j < index → base_of raw +:+ "_" +:+ pretty j ∈ used)
    ∧ (sanitized ∉ used)
    ∧ (∀ later_used later_raw later_name later_set,
         {[ sanitized ]} ∪ used ⊆ later_used →
         _sanitize_and_uniq_tool_name later_used later_raw
         = Some (later_name, later_set) →
         later_name ≠ sanitized).
Proof.
  destruct (sanitize_spec used raw) as (k & Hk & Hcall & Hfresh & Hbelow).
  exists (candidate (base_of raw) k), k.
  split_and!; try done.
  - apply candidate_nonempty, base_of_nonempty.
  - apply candidate_class, base_of_class.
  - apply base_of_fallback.
  - intros ->. done.
  - intros Hk2. unfold candidate. case_decide; [lia|].
    split_and!; [done| |].
    + by apply (Hbelow 1); [lia].
    + intros j Hj. specialize (Hbelow j). unfold candidate in Hbelow.
      case_decide; [lia|]. apply Hbelow. lia.
  - intros later_used later_raw later_name later_set Hsub Hlater Heq.
    destruct (sanitize_spec later_used later_raw)
      as (k' & _ & Hcall' & Hfresh' & _).
    rewrite Hcall' in Hlater. injection Hlater as <- _.
    apply Hfresh'. rewrite Heq. apply Hsub. set_solver.
Qed.

(** The names given to a list of raw names, one call after the other, are
    pairwise distinct. *)
Lemma sanitize_names_NoDup names used :
  ∃ out used',
    sanitize_names used names = Some (out, used')
    ∧ NoDup out ∧ used ⊆ used'
    ∧ ∀ s, s ∈ out → s ∈ used' ∧ s ∉ used.
Proof.
  revert used. induction names as [|raw names IH]; intros used; simpl.
  - exists [], used. split_and!; try done; [constructor|].
    intros s Hs. by apply elem_of_nil in Hs.
  - destruct (sanitize_spec used raw) as (k & _ & -> & Hfresh & _).
    destruct (IH ({[candidate (base_of raw) k]} ∪ used))
      as (out & used' & -> & Hnd & Hsub & Hout).
    do 2 eexists. split; [done|]. split_and!.
    + constructor; [|done]. intros Hin. apply Hout in Hin as [_ Hnot].
      apply Hnot, elem_of_union_l. by apply elem_of_singleton.
    + etrans; [|exact Hsub]. apply union_subseteq_r.
    + intros s Hs. apply elem_of_cons in Hs as [->|Hin].
      * split; [|done]. apply Hsub, elem_of_union_l. by apply elem_of_singleton.
      * apply Hout in Hin as [Hin Hnot]. split; [done|].
        intros Hu. apply Hnot. by apply elem_of_union_r.
Qed.


(** A file that loads is returned as it decodes, and nothing is written. *)
Lemma load_config_loaded json_loads json_dumps self fs text config :
  files fs !! config_file self = Some text →
  json_loads text = Some config →
  load_config json_loads json_dumps self fs = (config, fs).
Proof. intros Hf Hl. unfold load_config. by rewrite Hf, Hl. Qed.

(** The branches of the normalization of the arguments. *)
Lemma parse_args_cases json_loads py_str tool_args_raw :
  match tool_args_raw with
  | PStr "" => parse_args json_loads py_str tool_args_raw = PDict []
  | PStr text =>
      match json_loads text with
      | Some decoded => parse_args json_loads py_str tool_args_raw = decoded
      | None =>
          parse_args json_loads py_str tool_args_raw
          = PDict [("$raw", PStr text)]
      end
  | PDict _ => parse_args json_loads py_str tool_args_raw = tool_args_raw
  | _ =>
      parse_args json_loads py_str tool_args_raw
      = PDict [("$raw", PStr (py_str tool_args_raw))]
  end.
Proof.
  destruct tool_args_raw as [| | |[|c text]| |]; simpl; try done.
  by destruct (json_loads _).
Qed.

(** The result is a dictionary in every case but one: a text that decodes
    to something else than a dictionary. *)
Lemma parse_args_is_dict json_loads py_str tool_args_raw :
  (∀ text decoded,
     tool_args_raw = PStr text → json_loads text = Some decoded →
     is_dict decoded = true) →
  is_dict (parse_args json_loads py_str tool_args_raw) = true.
Proof.
  intros Hdec.
  destruct tool_args_raw as [| | |[|c text]| |]; simpl; try done.
  destruct (json_loads _) eqn:E; [|done]. by eapply Hdec.
Qed.

(** C9, where the code departs from it. A non-empty text that decodes to a
    value that is not a dictionary is passed on as that value: the
    arguments that the tool is started and invoked with are not a
    mapping. *)
Theorem parse_args_decoded_non_mapping
    (json_loads : string -> option pyval) (py_str : pyval -> string)
    (text : string) (decoded : pyval) (i : nat) (id fn_name name : option string)
    (args : pyval) :
  text ≠ "" →
  json_loads text = Some decoded →
  is_dict decoded = false →
  parse_args json_loads py_str (PStr text) = decoded
  ∧ is_dict (parse_args json_loads py_str (PStr text)) = false
  ∧ parsed_args_of json_loads py_str i
      (ToolCallDict id
         (Some {| fn_name := fn_name; fn_arguments := PStr text |})
         name args)
    = decoded.
Proof.
  intros Hne Hdec Hnd.
  assert (parse_args json_loads py_str (PStr text) = decoded) as Hp.
  { destruct text as [|c text]; [done|]. simpl. by rewrite Hdec. }
  split_and!; [done|by rewrite Hp|].
  unfold parsed_args_of, tool_args_raw_of. simpl.
  unfold py_or. simpl.
  apply String.eqb_neq in Hne. rewrite !Hne. cbn [negb truthy].
  rewrite Hne. cbn [negb]. exact Hp.
Qed.

End OtherClaims.

(** ** The claims on scripted runs *)

Section Runs.
Import WebMCPAgent Trace Samples MCPConfig.

Local Abbreviation sample_round llm :=
  (chat_round json_loads_sample py_str_sample now_sample llm tools_sample).
Local Abbreviation sample_run llm :=
  (chat_stream json_loads_sample py_str_sample now_sample llm tools_sample).
Local Abbreviation sample_stream llm := (stream_of now_sample llm).

(** A model that streams a fragment and then reports three intents: the
    three tools are looked up, two are invoked, what they return or raise is
    written to the transcript, and the warning is printed. *)
Lemma tool_round_despite_forwarded_text_witness :
  0 < max_rounds
  ∧ stream_raises (sample_stream llm_text_then_tools 1 entry_sample) = false
  ∧ reported_tool_calls (sample_stream llm_text_then_tools 1 entry_sample)
    = Some intents_sample
  ∧ intents_sample ≠ []
  ∧ fragments (sample_stream llm_text_then_tools 1 entry_sample)
    = ["Let me check."]
  ∧ ∃ st',
      sample_round llm_text_then_tools 1 entry_sample = (st', Continue)
      ∧ invocations st'
        = [("get_weather", PDict [("city", PStr "Oslo")]);
           ("flaky", PDict [])]
      ∧ shared_history st'
        = [UserMessage "weather in Oslo?";
           AssistantMessage "" (Some intents_sample);
           ToolMessage "call_a" "get_weather" "sunny";
           ToolMessage "call_b" "no_such_tool"
             "错误: 工具 'no_such_tool' 未找到";
           ToolMessage "call_3" "flaky" "错误: 工具执行出错: timeout"]
      ∧ conflict_warning ∈ stdout st'.
Proof.
  assert (0 < max_rounds) as H1 by (unfold max_rounds; lia).
  assert (stream_raises (sample_stream llm_text_then_tools 1 entry_sample)
          = false) as H2 by reflexivity.
  assert (reported_tool_calls
            (sample_stream llm_text_then_tools 1 entry_sample)
          = Some intents_sample) as H3 by reflexivity.
  assert (intents_sample ≠ []) as H4 by discriminate.
  destruct (tool_round_despite_forwarded_text json_loads_sample
              py_str_sample now_sample llm_text_then_tools tools_sample
              0 entry_sample intents_sample H1 H2 H3 H4)
    as (st' & outs & Hround & Hinv & _ & _ & _ & _ & _ & _ & Hwarn & _).
  split_and!; [exact H1|exact H2|exact H3|exact H4|reflexivity|].
  exists st'. split_and!; [exact Hround|rewrite Hinv; reflexivity| |].
  - assert (sample_round llm_text_then_tools 1 entry_sample = (st', Continue))
      as Hcopy by exact Hround.
    vm_compute in Hcopy. injection Hcopy as <-. reflexivity.
  - apply Hwarn. discriminate.
Defined.



Lemma always_tools_runs_25_rounds_witness :
  (∀ i messages,
     stream_raises (llm_always_tools i messages) = false
     ∧ has_tool_calls (reported_tool_calls (llm_always_tools i messages))
       = true)
  ∧ ∃ st,
      sample_run llm_always_tools "weather in Oslo?" [] (Some "s1") = Some st
      ∧ length (requests st) = 25.
Proof.
  assert (∀ i messages,
            stream_raises (llm_always_tools i messages) = false
            ∧ has_tool_calls
                (reported_tool_calls (llm_always_tools i messages)) = true)
    as H1 by (intros i messages; split; reflexivity).
  destruct (always_tools_runs_25_rounds json_loads_sample py_str_sample
              now_sample llm_always_tools tools_sample
              "weather in Oslo?" [] (Some "s1") H1)
    as (st & events & Hrun & Hlen & _).
  split; [exact H1|]. exists st. split; [exact Hrun|exact Hlen].
Defined.

Lemma content_only_answer_witness :
  0 < max_rounds
  ∧ stream_raises (sample_stream llm_content_only 1 entry_sample) = false
  ∧ has_tool_calls
      (reported_tool_calls (sample_stream llm_content_only 1 entry_sample))
    = false
  ∧ ∃ st',
      sample_run llm_content_only "weather in Oslo?" [] (Some "s1") = Some st'
      ∧ yielded st'
        = [status "开始生成..."; ai_response_start "AI正在回复...";
           ai_response_chunk "Hel"; ai_response_chunk "lo";
           ai_response_end "Hello"]
      ∧ invocations st' = [].
Proof.
  assert (0 < max_rounds) as H1 by (unfold max_rounds; lia).
  assert (stream_raises (sample_stream llm_content_only 1 entry_sample)
          = false) as H2 by reflexivity.
  assert (has_tool_calls
            (reported_tool_calls
               (sample_stream llm_content_only 1 entry_sample)) = false)
    as H3 by reflexivity.
  destruct (content_only_answer json_loads_sample py_str_sample now_sample
              llm_content_only tools_sample 0 entry_sample H1 H2 H3)
    as (st' & events & _ & _ & _ & _ & _ & Hev & _ & _ & _ & Hrun).
  destruct (Hrun "weather in Oslo?" [] (Some "s1") eq_refl eq_refl)
    as (Hsome & Hy & Hi).
  split_and!; [exact H1|exact H2|exact H3|].
  exists st'. split_and!; [exact Hsome| |exact Hi].
  rewrite Hy, Hev. reflexivity.
Defined.

Lemma stream_failure_round_witness :
  0 < max_rounds
  ∧ stream_raises (sample_stream llm_breaks_at_once 1 entry_sample) = true
  ∧ ∃ st',
      sample_round llm_breaks_at_once 1 entry_sample = (st', Return)
      ∧ yielded st'
        = [status "开始生成..."; ai_response_start "AI正在回复...";
           ai_response_end ""].
Proof.
  assert (0 < max_rounds) as H1 by (unfold max_rounds; lia).
  assert (stream_raises (sample_stream llm_breaks_at_once 1 entry_sample)
          = true) as H2 by reflexivity.
  destruct (stream_failure_round json_loads_sample py_str_sample now_sample
              llm_breaks_at_once tools_sample 0 entry_sample H1 H2)
    as (st' & Hround & _ & _ & _ & Hy & _).
  split_and!; [exact H1|exact H2|].
  exists st'. split; [exact Hround|]. rewrite Hy. reflexivity.
Defined.

(** C2 as stated fails: the stream of this model breaks after the fragment
    ["Hi"] was forwarded, and the [ai_response_end] of the round carries
    ["Hi"], not the empty string. *)
Lemma stream_failure_keeps_forwarded_text :
  stream_raises (sample_stream llm_breaks_after_fragment 1 entry_sample)
  = true
  ∧ ∃ st,
      sample_run llm_breaks_after_fragment "weather in Oslo?" [] (Some "s1")
      = Some st
      ∧ yielded st
        = [status "开始生成..."; ai_response_start "AI正在回复...";
           ai_response_chunk "Hi"; ai_response_end "Hi"]
      ∧ ai_response_end "" ∉ yielded st.
Proof.
  split; [reflexivity|]. eexists. split; [vm_compute; reflexivity|].
  split; [reflexivity|].
  intros Hin. repeat (apply elem_of_cons in Hin as [Heq|Hin]; [discriminate|]).
  by apply elem_of_nil in Hin.
Qed.

Lemma stream_failure_after_fragments_witness :
  0 < max_rounds
  ∧ stream_raises (sample_stream llm_breaks_after_fragment 1 entry_sample)
    = true
  ∧ fragments (sample_stream llm_breaks_after_fragment 1 entry_sample) ≠ []
  ∧ ∃ st',
      sample_round llm_breaks_after_fragment 1 entry_sample = (st', Return)
      ∧ yielded st'
        = [status "开始生成..."; ai_response_start "AI正在回复...";
           ai_response_chunk "Hi"; ai_response_end "Hi"].
Proof.
  assert (0 < max_rounds) as H1 by (unfold max_rounds; lia).
  assert (stream_raises
            (sample_stream llm_breaks_after_fragment 1 entry_sample) = true)
    as H2 by reflexivity.
  assert (fragments (sample_stream llm_breaks_after_fragment 1 entry_sample)
          ≠ []) as H3 by discriminate.
  destruct (stream_failure_after_fragments json_loads_sample py_str_sample
              now_sample llm_breaks_after_fragment tools_sample 0
              entry_sample H1 H2 H3)
    as (st' & events & Hround & _ & Hy & Hev & _).
  split_and!; [exact H1|exact H2|exact H3|].
  exists st'. split; [exact Hround|]. rewrite Hy, Hev. reflexivity.
Defined.

(** An answer that arrives only in the terminal event is sent as one
    chunk. *)
Example unstreamed_answer :
  yielded <$> sample_run llm_unstreamed "weather in Oslo?" [] None
  = Some [status "开始生成..."; ai_response_start "AI正在回复...";
          ai_response_chunk "Hello"; ai_response_end "Hello"].
Proof. vm_compute. reflexivity. Qed.

(** The run of the model that streams text and then asks for tools. *)
Example text_then_tools_run :
  yielded <$> sample_run llm_text_then_tools "weather in Oslo?" [] None
  = Some [status "开始生成..."; ai_response_start "AI正在回复...";
          ai_response_chunk "Let me check.";
          tool_plan "AI决定调用 3 个工具" 3;
          tool_start "call_a" "get_weather" (PDict [("city", PStr "Oslo")])
            "1/3";
          tool_end "call_a" "get_weather" "sunny";
          tool_start "call_b" "no_such_tool" (PDict []) "2/3";
          tool_error "call_b" "工具 'no_such_tool' 未找到";
          tool_start "call_3" "flaky" (PDict []) "3/3";
          tool_error "call_3" "工具执行出错: timeout";
          ai_response_start "AI正在回复..."; ai_response_chunk "Hel";
          ai_response_chunk "lo"; ai_response_end "Hello"].
Proof. vm_compute. reflexivity. Qed.



(** A missing file is created with the text of the empty default. *)
Example load_config_creates_missing_file :
  load_config json_loads_sample json_dumps_sample config_sample fs_missing
  = (PDict [],
     {| files := {[ "mcp.json" := "{}" ]}; read_only := ∅ |}).
Proof. vm_compute. reflexivity. Qed.

Lemma parse_args_decoded_non_mapping_witness :
  "[1, 2]" ≠ ""
  ∧ json_loads_sample "[1, 2]" = Some (PList [PInt 1; PInt 2])
  ∧ is_dict (PList [PInt 1; PInt 2]) = false
  ∧ parse_args json_loads_sample py_str_sample (PStr "[1, 2]")
    = PList [PInt 1; PInt 2]
  ∧ parsed_args_of json_loads_sample py_str_sample 1 call_array_args
    = PList [PInt 1; PInt 2].
Proof.
  assert ("[1, 2]" ≠ "") as H1 by discriminate.
  assert (json_loads_sample "[1, 2]" = Some (PList [PInt 1; PInt 2]))
    as H2 by reflexivity.
  assert (is_dict (PList [PInt 1; PInt 2]) = false) as H3 by reflexivity.
  destruct (parse_args_decoded_non_mapping json_loads_sample py_str_sample
              "[1, 2]" (PList [PInt 1; PInt 2]) 1 (Some "call_c")
              (Some "get_weather") None PNone H1 H2 H3)
    as (Hp & _ & Hargs).
  split_and!; [exact H1|exact H2|exact H3|exact Hp|exact Hargs].
Defined.

(** The tool is started and invoked with the decoded array. *)
Example array_arguments_reach_the_tool :
  let st := run_tool_call json_loads_sample py_str_sample tools_sample 1 1
              call_array_args initial_state in
  yielded st
  = [tool_start "call_c" "get_weather" (PList [PInt 1; PInt 2]) "1/1";
     tool_end "call_c" "get_weather" "sunny"]
  ∧ invocations st = [("get_weather", PList [PInt 1; PInt 2])].
Proof. vm_compute. split; reflexivity. Qed.

(** The other payloads are turned into dictionaries. *)
Example arguments_normalized :
  parse_args json_loads_sample py_str_sample (PStr "") = PDict []
  ∧ parse_args json_loads_sample py_str_sample (PStr "{}") = PDict []
  ∧ parse_args json_loads_sample py_str_sample (PStr "{oops")
    = PDict [("$raw", PStr "{oops")]
  ∧ parse_args json_loads_sample py_str_sample (PDict [("a", PInt 1)])
    = PDict [("a", PInt 1)]
  ∧ parse_args json_loads_sample py_str_sample (PInt 7)
    = PDict [("$raw", PStr "7")].
Proof. vm_compute. by split_and!. Qed.

Example sanitize_examples :
  fst <$> Sanitizer.sanitize_names ∅ ["a b"; "a_b"; "a.b"; ""; ""; "ok-1"]
  = Some ["a_b"; "a_b_2"; "a_b_3"; "tool"; "tool_2"; "ok-1"].
Proof. vm_compute. reflexivity. Qed.

End Runs.

(** ** Further properties of a run of [chat_stream] *)

Section RunFacts.
Import WebMCPAgent Trace Tally.

Variable json_loads : string -> option pyval.
Variable py_str : pyval -> string.
Variable now : nat -> datetime.
Variable llm_tools : nat -> list message -> astream.
Variable tools : list tool.

Local Abbreviation chat_round := (chat_round json_loads py_str now llm_tools tools).
Local Abbreviation while_rounds := (while_rounds json_loads py_str now llm_tools tools).
Local Abbreviation chat_stream := (chat_stream json_loads py_str now llm_tools tools).
Local Abbreviation calls_events := (calls_events json_loads py_str tools).
Local Abbreviation calls_messages := (calls_messages json_loads py_str tools).
Local Abbreviation resolved_calls := (resolved_calls json_loads py_str tools).
Local Abbreviation stream_of := (stream_of now llm_tools).

Lemma count_calls_tool_start i n tool_calls :
  count is_tool_start (calls_events i n tool_calls) = length tool_calls
  ∧ count is_tool_end (calls_events i n tool_calls)
    + count is_tool_error (calls_events i n tool_calls)
    = length tool_calls.
Proof.
  revert i. induction tool_calls as [|tool_call rest IH]; intros i; simpl;
    [done|].
  rewrite !count_app. destruct (IH (S i)) as [-> Hsum].
  destruct (call_alone_outcome json_loads py_str tools i n tool_call)
    as (entry & _ & Hout).
  destruct Hout; simpl; lia.
Qed.

Lemma tool_entries_app l1 l2 :
  tool_entries (l1 ++ l2) = tool_entries l1 + tool_entries l2.
Proof. unfold tool_entries. by rewrite List.filter_app, length_app. Qed.

Lemma tool_entries_all l :
  Forall (λ m, is_tool_message m = true) l → tool_entries l = length l.
Proof.
  unfold tool_entries. induction 1 as [|m l Hm _ IH]; simpl; [done|].
  rewrite Hm. simpl. by rewrite IH.
Qed.

Lemma tool_entries_none l :
  Forall (λ m, is_tool_message m = false) l → tool_entries l = 0.
Proof.
  unfold tool_entries. induction 1 as [|m l Hm _ IH]; simpl; [done|].
  by rewrite Hm.
Qed.

(** The two ways in which a round goes, with what it adds to each log. *)
Lemma chat_round_cases round_index st :
  (∃ tcs st',
     tcs ≠ []
     ∧ chat_round round_index st = (st', Continue)
     ∧ shared_history st'
       = shared_history st
         ++ AssistantMessage "" (Some tcs)
            :: calls_messages 1 (length tcs) tcs
     ∧ yielded st'
       = yielded st ++ forwarded (fragments (stream_of round_index st))
         ++ tool_plan (plan_text (length tcs)) (length tcs)
            :: calls_events 1 (length tcs) tcs
     ∧ invocations st' = invocations st ++ resolved_calls 1 tcs
     ∧ requests st'
       = requests st ++ [request_of now round_index (shared_history st)])
  ∨ (∃ st' events text,
       chat_round round_index st = (st', Return)
       ∧ shared_history st' = shared_history st
       ∧ yielded st' = yielded st ++ events ++ [ai_response_end text]
       ∧ (∀ kind,
            (∀ c, kind (ai_response_start c) = false) →
            (∀ c, kind (ai_response_chunk c) = false) →
            count kind events = 0)
       ∧ invocations st' = invocations st
       ∧ requests st'
         = requests st ++ [request_of now round_index (shared_history st)]).
Proof.
  destruct (has_tool_calls
              (if stream_raises (stream_of round_index st) then None
               else reported_tool_calls (stream_of round_index st))) eqn:Hc.
  - left.
    destruct (stream_raises (stream_of round_index st)) eqn:Hr; [done|].
    destruct (reported_tool_calls (stream_of round_index st))
      as [[|tc tcs]|] eqn:Hrep; try done.
    destruct (tool_round json_loads py_str now llm_tools tools round_index st
                (tc :: tcs) Hr Hrep)
      as (st' & Hround & Hh & Hy & Hi & Hq & _); [done|].
    exists (tc :: tcs), st'. split_and!; try done.
    by rewrite Hi, calls_invocations_resolved.
  - right.
    destruct (final_round json_loads py_str now llm_tools tools round_index
                st Hc)
      as (st' & Hround & Hh & Hy & Hi & Hq & _).
    destruct (fragments (stream_of round_index st)) as [|c frags] eqn:Hfr.
    + set (final_text :=
             if stream_raises (stream_of round_index st) then ""
             else reported_content (stream_of round_index st)) in *.
      exists st',
        (ai_response_start "AI正在回复..."
         :: (if String.eqb final_text "" then []
             else [ai_response_chunk final_text])),
        final_text.
      split_and!; try done.
      intros kind Hs Hk. simpl. rewrite Hs.
      destruct (String.eqb _ _); simpl; by rewrite ?Hk.
    + exists st', (forwarded (c :: frags)),
        (String.concat "" (c :: frags)).
      split_and!; try done.
      intros kind Hs Hk. by apply count_forwarded_other.
Qed.

Lemma rounds_exhausted_spec st :
  shared_history (rounds_exhausted st) = shared_history st
  ∧ invocations (rounds_exhausted st) = invocations st
  ∧ requests (rounds_exhausted st) = requests st
  ∧ yielded (rounds_exhausted st)
    = yielded st
      ++ [ai_response_start "AI正在回复..."; ai_response_chunk exhaustion_text]
      ++ [ai_response_end exhaustion_text].
Proof. split_and!; try done. simpl. by rewrite <-!app_assoc. Qed.

(** An invariant kept by the rounds that continue holds when the loop is
    left, in the form that the leaving round or the exhaustion give it. *)
Lemma while_rounds_inv (I F : state → Prop) :
  (∀ r st st1, I st → chat_round r st = (st1, Continue) → I st1) →
  (∀ r st st1, I st → chat_round r st = (st1, Return) → F st1) →
  (∀ st, I st → F (rounds_exhausted st)) →
  ∀ fuel r st st', I st → while_rounds fuel r st = Some st' → F st'.
Proof.
  intros Hcont Hret Hexh. induction fuel as [|fuel IH]; intros r st st' Hi.
  - simpl. destruct (r <? max_rounds); [done|]. intros [= <-]. by apply Hexh.
  - rewrite while_rounds_S. destruct (r <? max_rounds).
    + destruct (chat_round (S r) st) as [st1 []] eqn:Hround.
      * apply IH. by eapply Hcont.
      * intros [= <-]. by eapply Hret.
    + intros [= <-]. by apply Hexh.
Qed.

Lemma history_messages_kinds history :
  Forall (λ m, is_system_message m = false ∧ is_tool_message m = false)
    (history_messages history).
Proof.
  induction history as [|record rest IH]; simpl; [constructor|].
  constructor; [done|]. apply Forall_app. split; [|done].
  destruct (truthy_str _); by repeat constructor.
Qed.

Ltac continuing_round r st Hround :=
  let tcs := fresh "tcs" in
  destruct (chat_round_cases r st)
    as [(tcs & ? & Hne & Hr2 & Hh & Hy & Hinv & Hq)
       |(? & ? & ? & Hr2 & _)];
  rewrite Hr2 in Hround; [injection Hround as <-|discriminate].

Ltac returning_round r st Hround :=
  destruct (chat_round_cases r st)
    as [(? & ? & _ & Hr2 & _)
       |(? & events & text & Hr2 & Hh & Hy & Hkinds & Hinv & Hq)];
  rewrite Hr2 in Hround; [discriminate|injection Hround as <-].

(** The shape of a run in this embedding, where the content of a chunk is
    text and no statement outside the [try] blocks of the rounds raises. *)
Lemma run_shape (user_input : string)
    (history : list history_record) (session_id : option string) :
  ∃ st events text,
    chat_stream user_input history session_id = Some st
    ∧ yielded st
      = status "开始生成..." :: events ++ [ai_response_end text]
    ∧ count is_response_end events = 0
    ∧ count is_error (yielded st) = 0.
Proof.
  destruct (chat_stream_total json_loads py_str now llm_tools tools
              user_input history session_id) as [st Hrun].
  exists st.
  cut (∃ events text,
         yielded st = status "开始生成..." :: events ++ [ai_response_end text]
         ∧ count is_response_end events = 0
         ∧ count is_error events = 0).
  { intros (events & text & Hy & He & Herr). exists events, text.
    split_and!; try done. rewrite Hy. simpl. rewrite count_app, Herr. done. }
  refine (while_rounds_inv
            (λ st, ∃ events,
               yielded st = status "开始生成..." :: events
               ∧ count is_response_end events = 0
               ∧ count is_error events = 0)
            (λ st, ∃ events text,
               yielded st
               = status "开始生成..." :: events ++ [ai_response_end text]
               ∧ count is_response_end events = 0
               ∧ count is_error events = 0)
            _ _ _ _ _ _ _ _ Hrun).
  - intros r st0 st1 (events & Hy0 & He & Herr) Hround.
    continuing_round r st0 Hround.
    eexists. split; [rewrite Hy, Hy0; simpl; reflexivity|].
    rewrite !count_app, He, Herr, !count_forwarded_other by done.
    cbn [count is_response_end is_error].
    by rewrite !count_calls_events.
  - intros r st0 st1 (events0 & Hy0 & He & Herr) Hround.
    returning_round r st0 Hround.
    exists (events0 ++ events), text.
    split; [rewrite Hy, Hy0; simpl; by rewrite <-app_assoc|].
    by rewrite !count_app, He, Herr, (Hkinds is_response_end),
      (Hkinds is_error).
  - intros st0 (events0 & Hy0 & He & Herr).
    destruct (rounds_exhausted_spec st0) as (_ & _ & _ & Hy).
    exists (events0
            ++ [ai_response_start "AI正在回复...";
                ai_response_chunk exhaustion_text]), exhaustion_text.
    split; [rewrite Hy, Hy0; by rewrite <-app_assoc|].
    by rewrite !count_app, He, Herr.
  - destruct (enter_loop_spec user_input history session_id)
      as (_ & Hy0 & _).
    by exists [].
Qed.

Lemma count_ge_elem kind (e : event) events :
  kind e = true → e ∈ events → 1 ≤ count kind events.
Proof.
  intros Hk. induction events as [|e0 events IH]; simpl.
  - intros Hin. by apply elem_of_nil in Hin.
  - intros [->|Hin]%elem_of_cons; [rewrite Hk; lia|].
    apply IH in Hin. lia.
Qed.

(** X1. A run yields at most one [ai_response_end], and nothing after it:
    the rounds that call tools yield none, and the round that yields one
    returns. *)
Theorem response_end_is_final (user_input : string)
    (history : list history_record) (session_id : option string) :
  ∃ st,
    chat_stream user_input history session_id = Some st
    ∧ count is_response_end (yielded st) ≤ 1
    ∧ ∀ before text after,
        yielded st = before ++ ai_response_end text :: after → after = [].
Proof.
  destruct (run_shape user_input history session_id)
    as (st & events & text0 & Hrun & Hy & He & _).
  exists st. split; [done|]. split.
  - rewrite Hy. simpl. rewrite count_app, He. simpl. lia.
  - intros before text after Hsplit.
    destruct after as [|x after _] using rev_ind; [done|]. exfalso.
    rewrite Hy in Hsplit.
    change (status "开始生成..." :: events ++ [ai_response_end text0])
      with ((status "开始生成..." :: events) ++ [ai_response_end text0])
      in Hsplit.
    replace (before ++ ai_response_end text :: after ++ [x])
      with ((before ++ ai_response_end text :: after) ++ [x]) in Hsplit
      by (by rewrite <-app_assoc).
    apply app_inj_tail in Hsplit as [Hfront _].
    assert (1 ≤ count is_response_end (status "开始生成..." :: events))
      as Hone.
    { apply (count_ge_elem _ (ai_response_end text)); [done|].
      rewrite Hfront. apply elem_of_app. right. apply elem_of_cons.
      by left. }
    simpl in Hone. lia.
Qed.

(** X2. Whatever the model does, a run sends at least one and at most 25
    requests to the model. *)
Theorem requests_between_1_and_25 (user_input : string)
    (history : list history_record) (session_id : option string) :
  ∃ st,
    chat_stream user_input history session_id = Some st
    ∧ 1 ≤ length (requests st) ≤ 25.
Proof.
  destruct (chat_stream_total json_loads py_str now llm_tools tools
              user_input history session_id) as [st Hrun].
  exists st. split; [done|].
  destruct (enter_loop_spec user_input history session_id)
    as (_ & _ & _ & Hq0).
  cut (∀ fuel r st0 st',
         while_rounds fuel r st0 = Some st' →
         (if r <? max_rounds then S (length (requests st0)) else length (requests st0))
         ≤ length (requests st')
         ∧ length (requests st') ≤ length (requests st0) + (max_rounds - r)).
  { intros Hcut. apply Hcut in Hrun. rewrite Hq0 in Hrun. simpl in Hrun.
    unfold max_rounds in Hrun. lia. }
  clear. induction fuel as [|fuel IH]; intros r st0 st'.
  - cbn [WebMCPAgent.while_rounds]. destruct (r <? max_rounds) eqn:Hlt;
      [done|].
    intros [= <-]. cbn [rounds_exhausted requests yield print]. lia.
  - rewrite while_rounds_S. destruct (r <? max_rounds) eqn:Hlt.
    + apply Nat.ltb_lt in Hlt.
      destruct (chat_round_appends json_loads py_str now llm_tools tools
                  (S r) st0) as [_ Hq].
      destruct (chat_round (S r) st0) as [st1 []]; simpl in Hq.
      * intros Hloop%IH. rewrite Hq, length_app in Hloop.
        cbn [length] in Hloop. destruct (S r <? max_rounds); lia.
      * intros [= <-]. rewrite Hq, length_app. cbn [length]. lia.
    + intros [= <-]. cbn [rounds_exhausted requests yield print]. lia.
Qed.

(** X3. The system instruction is never stored in the transcript: at the
    end of a run the transcript has no system entry, and every request
    that was sent is one system entry followed by entries that are not
    system entries. *)
Theorem transcript_has_no_system_entry (user_input : string)
    (history : list history_record) (session_id : option string) :
  ∃ st,
    chat_stream user_input history session_id = Some st
    ∧ Forall (λ m, is_system_message m = false) (shared_history st)
    ∧ Forall well_formed_request (requests st).
Proof.
  destruct (chat_stream_total json_loads py_str now llm_tools tools
              user_input history session_id) as [st Hrun].
  exists st. split; [done|].
  revert Hrun. unfold WebMCPAgent.chat_stream.
  assert (∀ r st0,
            Forall (λ m, is_system_message m = false) (shared_history st0) →
            well_formed_request (request_of now r (shared_history st0)))
    as Hreq.
  { intros r st0 Hns. by do 2 eexists. }
  intros Hrun.
  refine (while_rounds_inv
            (λ st, Forall (λ m, is_system_message m = false)
                     (shared_history st)
                   ∧ Forall well_formed_request (requests st))
            (λ st, Forall (λ m, is_system_message m = false)
                     (shared_history st)
                   ∧ Forall well_formed_request (requests st))
            _ _ _ _ _ _ _ _ Hrun).
  - intros r st0 st1 [Hns Hwf] Hround.
    continuing_round r st0 Hround.
    rewrite Hh, Hq. split.
    + apply Forall_app. split; [done|]. constructor; [done|].
      eapply Forall_impl;
        [apply (calls_messages_tool json_loads py_str tools)|].
      by intros [] ?.
    + apply Forall_app. split; [done|]. constructor; [|done]. by apply Hreq.
  - intros r st0 st1 [Hns Hwf] Hround.
    returning_round r st0 Hround.
    rewrite Hh, Hq. split; [done|].
    apply Forall_app. split; [done|]. constructor; [|done]. by apply Hreq.
  - intros st0 [Hns Hwf]. done.
  - destruct (enter_loop_spec user_input history session_id)
      as (-> & _ & _ & ->).
    split; [|constructor].
    apply Forall_app. split; [|by repeat constructor].
    eapply Forall_impl; [apply history_messages_kinds|]. by intros ? [? _].
Qed.

Lemma resolved_calls_registered i tool_calls :
  Forall (λ inv, ∃ t, find_tool tools inv.1 = Some t)
    (resolved_calls i tool_calls).
Proof.
  revert i. induction tool_calls as [|tool_call rest IH]; intros i; simpl;
    [constructor|].
  destruct (find_tool tools _) as [t|] eqn:Hfind; [|apply IH].
  constructor; [by exists t|apply IH].
Qed.

Lemma find_tool_Some registry tool_name t :
  find_tool registry tool_name = Some t → name t = tool_name ∧ t ∈ registry.
Proof.
  induction registry as [|t0 rest IH]; simpl; [done|].
  case_decide as Hn.
  - intros [= <-]. split; [done|]. apply elem_of_cons. by left.
  - intros [? ?]%IH. split; [done|]. apply elem_of_cons. by right.
Qed.

Lemma find_tool_None registry tool_name :
  find_tool registry tool_name = None ↔ ∀ t, t ∈ registry → name t ≠ tool_name.
Proof.
  induction registry as [|t0 rest IH]; simpl.
  - split; [|done]. intros _ t Ht. by apply elem_of_nil in Ht.
  - case_decide as Hn.
    + split; [done|]. intros Hall. exfalso. apply (Hall t0); [|done].
      apply elem_of_cons. by left.
    + rewrite IH. split.
      * intros Hall t [->|Ht]%elem_of_cons; [done|by apply Hall].
      * intros Hall t Ht. apply Hall. apply elem_of_cons. by right.
Qed.

(** X4. A run only invokes tools of the registry: the name of every
    invocation is the name of the first tool of the registry that bears it.
    With an empty registry no tool is ever invoked. *)
Theorem only_registered_tools_are_invoked (user_input : string)
    (history : list history_record) (session_id : option string) :
  ∃ st,
    chat_stream user_input history session_id = Some st
    ∧ Forall (λ inv,
                ∃ t, find_tool tools inv.1 = Some t
                     ∧ name t = inv.1 ∧ t ∈ tools)
        (invocations st)
    ∧ (tools = [] → invocations st = []).
Proof.
  destruct (chat_stream_total json_loads py_str now llm_tools tools
              user_input history session_id) as [st Hrun].
  exists st. split; [done|].
  cut (Forall (λ inv, ∃ t, find_tool tools inv.1 = Some t) (invocations st)).
  { intros Hall. split.
    - eapply Forall_impl; [exact Hall|]. intros inv [t Ht].
      exists t. split; [done|]. by apply find_tool_Some.
    - intros Hempty. destruct (invocations st) as [|inv rest]; [done|].
      apply Forall_cons in Hall as [[t Ht] _]. by rewrite Hempty in Ht. }
  revert Hrun. unfold WebMCPAgent.chat_stream.
  intros Hrun.
  refine (while_rounds_inv
            (λ st, Forall (λ inv, ∃ t, find_tool tools inv.1 = Some t)
                     (invocations st))
            (λ st, Forall (λ inv, ∃ t, find_tool tools inv.1 = Some t)
                     (invocations st))
            _ _ _ _ _ _ _ _ Hrun).
  - intros r st0 st1 Hall Hround. continuing_round r st0 Hround.
    rewrite Hinv. apply Forall_app. split; [done|].
    apply resolved_calls_registered.
  - intros r st0 st1 Hall Hround. returning_round r st0 Hround.
    by rewrite Hinv.
  - intros st0 Hall. done.
  - destruct (enter_loop_spec user_input history session_id)
      as (_ & _ & -> & _). constructor.
Qed.

(** X5. Over a whole run the tool events balance: there are as many
    [tool_end] and [tool_error] events together as [tool_start] events,
    the transcript has one tool entry per [tool_start], and there are at
    most as many invocations as [tool_start] events. *)
Theorem tool_events_balance (user_input : string)
    (history : list history_record) (session_id : option string) :
  ∃ st,
    chat_stream user_input history session_id = Some st
    ∧ count is_tool_end (yielded st) + count is_tool_error (yielded st)
      = count is_tool_start (yielded st)
    ∧ tool_entries (shared_history st) = count is_tool_start (yielded st)
    ∧ length (invocations st) ≤ count is_tool_start (yielded st).
Proof.
  destruct (chat_stream_total json_loads py_str now llm_tools tools
              user_input history session_id) as [st Hrun].
  exists st. split; [done|].
  revert Hrun. unfold WebMCPAgent.chat_stream.
  intros Hrun.
  set (balanced := λ st : state,
         count is_tool_end (yielded st) + count is_tool_error (yielded st)
         = count is_tool_start (yielded st)
         ∧ tool_entries (shared_history st)
           = count is_tool_start (yielded st)
         ∧ length (invocations st) ≤ count is_tool_start (yielded st)).
  refine (while_rounds_inv balanced balanced _ _ _ _ _ _ _ _ Hrun);
    subst balanced; cbv beta.
  - intros r st0 st1 (Hbal & Hent & Hlen) Hround.
    continuing_round r st0 Hround.
    destruct (count_calls_tool_start 1 (length tcs) tcs) as [Hstart Hsum].
    rewrite Hy, Hh, Hinv, !count_app, !count_forwarded_other by done.
    cbn [count is_tool_start is_tool_end is_tool_error].
    rewrite Hstart, tool_entries_app, length_app.
    change (AssistantMessage "" (Some tcs) :: calls_messages 1 (length tcs) tcs)
      with ([AssistantMessage "" (Some tcs)]
            ++ calls_messages 1 (length tcs) tcs).
    rewrite tool_entries_app,
      (tool_entries_all (calls_messages 1 (length tcs) tcs))
      by apply calls_messages_tool.
    rewrite length_calls_messages.
    assert (length (resolved_calls 1 tcs) ≤ length tcs) as Hres.
    { clear. generalize 1. induction tcs as [|tc tcs IH]; intros i; simpl;
        [done|].
      destruct (find_tool tools _); simpl; specialize (IH (S i)); lia. }
    unfold tool_entries at 2. simpl. lia.
  - intros r st0 st1 (Hbal & Hent & Hlen) Hround.
    returning_round r st0 Hround.
    rewrite Hy, Hh, Hinv, !count_app, (Hkinds is_tool_start),
      (Hkinds is_tool_end), (Hkinds is_tool_error) by done. simpl. lia.
  - intros st0 (Hbal & Hent & Hlen).
    destruct (rounds_exhausted_spec st0) as (-> & -> & _ & ->).
    rewrite !count_app. simpl. lia.
  - destruct (enter_loop_spec user_input history session_id)
      as (-> & -> & -> & _).
    simpl. split_and!; try done.
    rewrite tool_entries_app. rewrite tool_entries_none.
    + done.
    + eapply Forall_impl; [apply history_messages_kinds|]. by intros ? [_ ?].
Qed.

Lemma user_contents_app l1 l2 :
  user_contents (l1 ++ l2) = user_contents l1 ++ user_contents l2.
Proof.
  induction l1 as [|m l1 IH]; simpl; [done|]. destruct m; simpl;
    by rewrite ?IH.
Qed.

(** X6. The transcript that the loop starts from keeps the caller's
    history in order: its user entries are the [user_input] of the records
    followed by the new input, which is its last entry; a record gives an
    assistant entry only when its [ai_response] is present and not empty,
    so that the transcript has between [n + 1] and [2 n + 1] entries for
    [n] records. *)
Theorem history_becomes_transcript (user_input : string)
    (history : list history_record) (session_id : option string) :
  user_contents (shared_history (enter_loop user_input history session_id))
  = (WebMCPAgent.user_input <$> history) ++ [user_input]
  ∧ last (shared_history (enter_loop user_input history session_id))
    = Some (UserMessage user_input)
  ∧ length (shared_history (enter_loop user_input history session_id))
    = length history
      + length (List.filter (λ record, truthy_str (ai_response record))
                  history)
      + 1
  ∧ length history + 1
    ≤ length (shared_history (enter_loop user_input history session_id))
    ≤ 2 * length history + 1.
Proof.
  destruct (enter_loop_spec user_input history session_id) as (-> & _).
  assert (length (history_messages history)
          = length history
            + length (List.filter (λ record, truthy_str (ai_response record))
                        history)) as Hlen.
  { induction history as [|record rest IH]; simpl; [done|].
    rewrite length_app, IH. destruct (truthy_str _); simpl; lia. }
  assert (length (List.filter (λ record, truthy_str (ai_response record))
                    history) ≤ length history) as Hfil
    by apply List.filter_length_le.
  split_and!.
  - rewrite user_contents_app. simpl. f_equal. clear Hlen Hfil.
    induction history as [|record rest IH]; simpl; [done|].
    rewrite user_contents_app, IH. by destruct (truthy_str _).
  - by rewrite last_snoc.
  - rewrite length_app, Hlen. simpl. lia.
  - rewrite length_app, Hlen. simpl. lia.
  - rewrite length_app, Hlen. simpl. lia.
Qed.

End RunFacts.

(** ** Further properties of the arguments and of the lookup *)

Section ArgumentFacts.
Import WebMCPAgent Trace.

(** X7. The lookup in the registry is by exact name and returns the first
    tool that bears the name: a tool that is found has the name asked for
    and no tool before it in the registry has it; nothing is found exactly
    when no tool of the registry has the name. *)
Theorem find_tool_exact (registry : list tool) (tool_name : string) :
  (∀ t,
     find_tool registry tool_name = Some t →
     ∃ before after,
       registry = before ++ t :: after
       ∧ name t = tool_name
       ∧ Forall (λ t', name t' ≠ tool_name) before)
  ∧ (find_tool registry tool_name = None
     ↔ Forall (λ t', name t' ≠ tool_name) registry).
Proof.
  induction registry as [|t0 rest [IHs IHn]]; simpl.
  - split; [done|]. split; [constructor|done].
  - case_decide as Hn.
    + split.
      * intros t [= <-]. exists [], rest. by split_and!.
      * split; [done|]. intros Hall. by apply Forall_cons in Hall as [? _].
    + split.
      * intros t (before & after & -> & ? & ?)%IHs.
        exists (t0 :: before), after. split_and!; try done.
        by constructor.
      * rewrite IHn. split.
        -- intros ?. by constructor.
        -- intros Hall. by apply Forall_cons in Hall as [_ ?].
Qed.

(** X8. Arguments that are falsy ([None], [False], [0], [""], [[]], [{}])
    are replaced by the empty dictionary before they are parsed: the tool
    is started with [{}], and such a value is not wrapped under ["$raw"]. *)
Theorem falsy_arguments_become_empty_dict
    (json_loads : string -> option pyval) (py_str : pyval -> string)
    (i : nat) (id name : option string) (function : option function_call)
    (args : pyval) :
  truthy args = false →
  (∀ fn, function = Some fn → truthy (fn_arguments fn) = false) →
  parsed_args_of json_loads py_str i (ToolCallObj id name args) = PDict []
  ∧ parsed_args_of json_loads py_str i (ToolCallDict id function name args)
    = PDict [].
Proof.
  intros Hargs Hfn.
  unfold parsed_args_of, tool_args_raw_of. simpl. unfold py_or.
  rewrite Hargs. simpl. split; [done|].
  destruct function as [fn|]; simpl.
  - by rewrite (Hfn fn eq_refl), Hargs.
  - by rewrite Hargs.
Qed.

(** X10. The normalization of the arguments gives a dictionary for every
    payload but one kind: a non-empty text that decodes to a value that is
    not a dictionary. *)
Theorem parse_args_dictionary_iff
    (json_loads : string -> option pyval) (py_str : pyval -> string)
    (tool_args_raw : pyval) :
  is_dict (parse_args json_loads py_str tool_args_raw) = false
  ↔ ∃ text decoded,
      tool_args_raw = PStr text ∧ text ≠ ""
      ∧ json_loads text = Some decoded ∧ is_dict decoded = false.
Proof.
  split.
  - destruct tool_args_raw as [| | |[|c text]| |]; simpl; try done.
    destruct (json_loads _) as [decoded|] eqn:Hdec; [|done].
    intros Hnd. by exists (String c text), decoded.
  - intros (text & decoded & -> & Hne & Hdec & Hnd).
    destruct text as [|c text]; [done|]. simpl. by rewrite Hdec.
Qed.

(** X9. The identifiers given to intents that carry none are [call_1],
    [call_2], ... by position: within a round two such intents never get
    the same identifier. *)
Theorem fallback_ids_are_distinct (i j : nat) (tc1 tc2 : tool_call) :
  truthy_str (tool_call_id_field tc1) = false →
  truthy_str (tool_call_id_field tc2) = false →
  i ≠ j →
  tool_id_of i tc1 = "call_" +:+ pretty i
  ∧ tool_id_of j tc2 = "call_" +:+ pretty j
  ∧ tool_id_of i tc1 ≠ tool_id_of j tc2.
Proof.
  intros H1 H2 Hij.
  assert (∀ k tc, truthy_str (tool_call_id_field tc) = false →
                  tool_id_of k tc = "call_" +:+ pretty k) as Hid.
  { intros k tc Hf. unfold tool_id_of.
    destruct tc as [[id|] ? ? ?|[id|] ? ?]; simpl in *; try done;
      destruct (String.eqb id ""); done. }
  rewrite (Hid i tc1 H1), (Hid j tc2 H2). split_and!; try done.
  intros Heq. apply (inj (String.app "call_")) in Heq.
  by apply (inj pretty) in Heq.
Qed.

End ArgumentFacts.

(** ** Further properties of the sanitizer *)

Section MoreSanitizerFacts.
Import Sanitizer.

Lemma re_sub_fixed s :
  string_forallb in_class s = true → re_sub_outside_class s = s.
Proof.
  induction s as [|c s IH]; simpl; [done|].
  intros [Hc Hs]%andb_true_iff. by rewrite Hc, IH.
Qed.

(** X11. A name that is not empty, has all its characters in the class
    and is not in use is returned unchanged. *)
Theorem sanitize_keeps_valid_fresh_name (used : gset string) (raw : string) :
  raw ≠ "" →
  string_forallb in_class raw = true →
  raw ∉ used →
  _sanitize_and_uniq_tool_name used raw = Some (raw, {[ raw ]} ∪ used).
Proof.
  intros Hne Hclass Hfresh. rewrite sanitize_unfold.
  assert (base_of raw = raw) as ->.
  { unfold base_of. rewrite re_sub_fixed by done.
    by apply String.eqb_neq in Hne as ->. }
  destruct (size used); simpl; by case_decide.
Qed.

(** X12. Every call adds exactly one name to the set of names in use, the
    name it returns, and removes none. *)
Theorem sanitize_adds_one_name (used : gset string) (raw : string) :
  ∃ sanitized used',
    _sanitize_and_uniq_tool_name used raw = Some (sanitized, used')
    ∧ size used' = S (size used)
    ∧ used ⊆ used'
    ∧ sanitized ∈ used'
    ∧ ∀ other, other ∈ used' → other = sanitized ∨ other ∈ used.
Proof.
  destruct (sanitize_spec used raw) as (k & _ & Hcall & Hfresh & _).
  do 2 eexists. split; [exact Hcall|]. split_and!.
  - rewrite size_union by (by apply disjoint_singleton_l).
    by rewrite size_singleton.
  - apply union_subseteq_r.
  - apply elem_of_union_l. by apply elem_of_singleton.
  - intros other [Ho%elem_of_singleton|Ho]%elem_of_union; auto.
Qed.

(** X14. The names given to a list of raw names by successive calls are as
    many as the raw names, pairwise distinct, not empty, in the class, and
    none of them was in use before. *)
Theorem sanitize_names_distinct (used : gset string) (names : list string) :
  ∃ out used',
    sanitize_names used names = Some (out, used')
    ∧ length out = length names
    ∧ NoDup out
    ∧ Forall (λ s, s ≠ "" ∧ string_forallb in_class s = true ∧ s ∉ used) out.
Proof.
  destruct (sanitize_names_NoDup names used)
    as (out & used' & Hcall & Hnd & _ & Hout).
  exists out, used'. split_and!; try done.
  - clear Hnd Hout. revert used out used' Hcall.
    induction names as [|raw names IH]; intros used out used'; simpl.
    + by intros [= <- <-].
    + destruct (sanitize_spec used raw) as (k & _ & -> & _).
      destruct (sanitize_names _ names) as [[out1 used1]|] eqn:Hrest; [|done].
      intros [= <- <-]. simpl. f_equal. by eapply IH.
  - apply Forall_forall. intros s Hs. split_and!; [| |by apply Hout].
    + clear Hnd Hout. revert used out used' Hcall Hs.
      induction names as [|raw names IH]; intros used out used'; simpl.
      * intros [= <- <-] Hs. by apply elem_of_nil in Hs.
      * destruct (sanitize_spec used raw) as (k & _ & -> & _).
        destruct (sanitize_names _ names) as [[out1 used1]|] eqn:Hrest;
          [|done].
        intros [= <- <-] [->|Hs]%elem_of_cons.
        -- apply candidate_nonempty, base_of_nonempty.
        -- by eapply IH.
    + clear Hnd Hout. revert used out used' Hcall Hs.
      induction names as [|raw names IH]; intros used out used'; simpl.
      * intros [= <- <-] Hs. by apply elem_of_nil in Hs.
      * destruct (sanitize_spec used raw) as (k & _ & -> & _).
        destruct (sanitize_names _ names) as [[out1 used1]|] eqn:Hrest;
          [|done].
        intros [= <- <-] [->|Hs]%elem_of_cons.
        -- apply candidate_class, base_of_class.
        -- by eapply IH.
Qed.

End MoreSanitizerFacts.

(** ** Further properties of the configuration file *)

Section ConfigFacts.
Import MCPConfig.

Variable json_loads : string -> option pyval.
Variable json_dumps : pyval -> string.

Lemma filesystem_eq fs1 fs2 :
  files fs1 = files fs2 → read_only fs1 = read_only fs2 → fs1 = fs2.
Proof. destruct fs1, fs2. simpl. by intros -> ->. Qed.

Lemma save_config_twice self config fs :
  save_config json_dumps self config (save_config json_dumps self config fs)
  = save_config json_dumps self config fs.
Proof.
  unfold save_config. case_decide as Hro; simpl.
  - by case_decide.
  - case_decide; [done|]. apply filesystem_eq; simpl; [|done].
    by rewrite insert_insert_eq.
Qed.

(** X15. [load_config] writes at most once: a second call leaves the file
    system exactly as the first call left it, whether the file was
    missing, malformed, well-formed or impossible to write. *)
Theorem load_config_settles (self : t) (fs : filesystem) :
  (load_config json_loads json_dumps self
     (load_config json_loads json_dumps self fs).2).2
  = (load_config json_loads json_dumps self fs).2.
Proof.
  set (loaded := λ fs0 : filesystem,
         match files fs0 !! config_file self with
         | Some text => json_loads text
         | None => None
         end).
  assert (∀ fs0,
            (load_config json_loads json_dumps self fs0).2
            = match loaded fs0 with
              | Some _ => fs0
              | None => save_config json_dumps self (default_config self) fs0
              end) as Hsnd.
  { intros fs0. unfold load_config. fold (loaded fs0).
    by destruct (loaded fs0). }
  rewrite !Hsnd. destruct (loaded fs) eqn:Hfirst.
  - by rewrite Hfirst.
  - destruct (loaded (save_config _ _ _ _)); [done|apply save_config_twice].
Qed.

(** X16. Saving and loading round-trip: when the path can be written and
    the decoder reads back what the encoder wrote, [load_config] after
    [save_config] returns the configuration saved and writes nothing. *)
Theorem save_then_load (self : t) (config : pyval) (fs : filesystem) :
  config_file self ∉ read_only fs →
  json_loads (json_dumps config) = Some config →
  load_config json_loads json_dumps self
    (save_config json_dumps self config fs)
  = (config, save_config json_dumps self config fs).
Proof.
  intros Hw Hround. unfold load_config, save_config.
  case_decide; [done|]. simpl. by rewrite lookup_insert_eq, Hround.
Qed.

(** X17. [load_config] only ever touches the file of the configuration:
    every other path keeps its content, the set of paths that cannot be
    written is unchanged, and when the file decodes the file system is
    returned as it was, with the decoded value. *)
Theorem load_config_frame (self : t) (fs : filesystem) :
  (∀ other,
     other ≠ config_file self →
     files (load_config json_loads json_dumps self fs).2 !! other
     = files fs !! other)
  ∧ read_only (load_config json_loads json_dumps self fs).2 = read_only fs
  ∧ (∀ text config,
       files fs !! config_file self = Some text →
       json_loads text = Some config →
       load_config json_loads json_dumps self fs = (config, fs)).
Proof.
  split_and!.
  - intros other Hne. unfold load_config.
    destruct (match files fs !! _ with
              | Some text => json_loads text | None => None end); simpl;
      [done|].
    unfold save_config. case_decide; [done|]. simpl.
    by rewrite lookup_insert_ne.
  - unfold load_config.
    destruct (match files fs !! _ with
              | Some text => json_loads text | None => None end); simpl;
      [done|].
    unfold save_config. by case_decide.
  - intros text config Hf Hl. unfold load_config. by rewrite Hf, Hl.
Qed.

End ConfigFacts.

(** ** The registry after the retrieval of the tools *)

Section RegistryFacts.
Import WebMCPAgent Sanitizer Registry.

Lemma str_or_self s : str_or (Some s) "" = s.
Proof. simpl. destruct (String.eqb s "") eqn:E; [|done].
  by apply String.eqb_eq in E. Qed.

Lemma set_name_spec sanitized t :
  description (set_name sanitized t) = description t
  ∧ ainvoke (handle (set_name sanitized t)) = ainvoke (handle t)
  ∧ args_schema (set_name sanitized t) = args_schema t
  ∧ tool_call_schema (set_name sanitized t) = tool_call_schema t
  ∧ input_schema (set_name sanitized t) = input_schema t
  ∧ (name_frozen t = false → tool_name (set_name sanitized t) = sanitized).
Proof. unfold set_name, tool_name. by destruct (name_frozen t). Qed.

(** The per-server loop, in terms of the successive calls of the
    sanitizer on the names. *)
Lemma sanitize_server_tools_spec server_tools used :
  ∃ out used' names,
    sanitize_server_tools used server_tools = Some (out, used')
    ∧ sanitize_names used (tool_name <$> server_tools) = Some (names, used')
    ∧ Forall2 (λ t t',
                 description t' = description t
                 ∧ ainvoke (handle t') = ainvoke (handle t)
                 ∧ args_schema t' = args_schema t
                 ∧ tool_call_schema t' = tool_call_schema t
                 ∧ input_schema t' = input_schema t) server_tools out
    ∧ (Forall (λ t, name_frozen t = false) server_tools →
       tool_name <$> out = names).
Proof.
  revert used. induction server_tools as [|t rest IH]; intros used.
  - exists [], used, []. by split_and!.
  - cbn [sanitize_server_tools sanitize_names fmap list_fmap].
    rewrite str_or_self.
    destruct (sanitize_spec used (tool_name t)) as (k & _ & -> & _).
    set (sanitized := candidate (base_of (tool_name t)) k).
    destruct (IH ({[sanitized]} ∪ used))
      as (out & used' & names & -> & -> & Hsame & Hnames).
    do 3 eexists. split_and!; try reflexivity.
    + constructor; [|done].
      destruct (String.eqb sanitized (tool_name t)); [done|].
      destruct (set_name_spec sanitized t) as (? & ? & ? & ? & ? & _).
      by split_and!.
    + intros [Hfrozen Hrest]%Forall_cons. simpl. f_equal; [|by apply Hnames].
      destruct (String.eqb sanitized (tool_name t)) eqn:E.
      * by apply String.eqb_eq in E.
      * by apply set_name_spec.
Qed.

Lemma fetch_servers_total get_tools server_names self :
  is_Some (fetch_servers get_tools server_names self).
Proof.
  revert self. induction server_names as [|s rest IH]; intros self; simpl;
    [by eexists|].
  destruct (get_tools s) as [ts|]; [|apply IH].
  destruct (sanitize_server_tools_spec ts (_used_tool_names self))
    as (out & used' & names & -> & _). apply IH.
Qed.

(** The invariant of the registry: distinct names, all of them well formed
    and recorded in the set of names in use. *)
Lemma fetch_servers_invariant get_tools server_names self :
  (∀ s ts, get_tools s = Some ts →
           Forall (λ t, name_frozen t = false) ts) →
  NoDup (tool_name <$> tools self) →
  Forall (λ n, n ∈ _used_tool_names self ∧ n ≠ ""
               ∧ string_forallb in_class n = true)
    (tool_name <$> tools self) →
  ∃ self',
    fetch_servers get_tools server_names self = Some self'
    ∧ NoDup (tool_name <$> tools self')
    ∧ Forall (λ n, n ∈ _used_tool_names self' ∧ n ≠ ""
                   ∧ string_forallb in_class n = true)
        (tool_name <$> tools self').
Proof.
  intros Hfrozen. revert self.
  induction server_names as [|s rest IH]; intros self Hnd Hgood; simpl.
  - by exists self.
  - destruct (get_tools s) as [ts|] eqn:Hget; [|by apply IH].
    destruct (sanitize_server_tools_spec ts (_used_tool_names self))
      as (out & used' & names & -> & Hnames & _ & Hout).
    specialize (Hout (Hfrozen s ts Hget)).
    destruct (sanitize_names_NoDup (tool_name <$> ts) (_used_tool_names self))
      as (names' & used'' & Hcall & Hnd' & Hsub & Hfresh).
    destruct (sanitize_names_distinct (_used_tool_names self)
                (tool_name <$> ts))
      as (names2 & used2 & Hcall2 & _ & _ & Hclass).
    rewrite Hnames in Hcall, Hcall2.
    injection Hcall as <- <-. injection Hcall2 as <- <-.
    apply IH; simpl; rewrite fmap_app, Hout.
    + apply NoDup_app. split_and!; try done.
      intros n Hn Hn'. apply Hfresh in Hn' as [_ Hnot]. apply Hnot.
      rewrite Forall_forall in Hgood. by apply Hgood.
    + apply Forall_app. split.
      * eapply Forall_impl; [exact Hgood|]. intros n (? & ? & ?).
        split_and!; try done. by apply Hsub.
      * apply Forall_forall. intros n Hn.
        rewrite Forall_forall in Hclass. destruct (Hclass n Hn) as (? & ? & _).
        split_and!; try done. by apply Hfresh.
Qed.

Lemma find_tool_unique registry t :
  NoDup (name <$> registry) → t ∈ registry →
  find_tool registry (name t) = Some t.
Proof.
  induction registry as [|t0 rest IH]; simpl; intros Hnd Hin.
  - by apply elem_of_nil in Hin.
  - apply NoDup_cons in Hnd as [Hnot Hnd].
    apply elem_of_cons in Hin as [->|Hin]; [by case_decide|].
    case_decide as Hn; [|by apply IH].
    exfalso. apply Hnot. rewrite Hn. by apply list_elem_of_fmap_2.
Qed.

(** X18. When no provider returns a tool whose name cannot be assigned,
    the tools of a fresh agent have, after the retrieval, pairwise distinct
    names that are not empty and in the class [[A-Za-z0-9_-]], from
    whatever names and in whatever number the providers returned them. *)
Theorem fetched_names_are_unique
    (get_tools : string -> option (list provider_tool))
    (server_names : list string) :
  (∀ s ts, get_tools s = Some ts →
           Forall (λ t, name_frozen t = false) ts) →
  ∃ self,
    fetch_servers get_tools server_names __init__ = Some self
    ∧ NoDup (tool_name <$> tools self)
    ∧ Forall (λ n, n ≠ "" ∧ string_forallb in_class n = true)
        (tool_name <$> tools self).
Proof.
  intros Hfrozen.
  destruct (fetch_servers_invariant get_tools server_names __init__ Hfrozen)
    as (self & Hfetch & Hnd & Hgood); simpl; [constructor..|].
  exists self. split_and!; try done.
  eapply Forall_impl; [exact Hgood|]. by intros n (_ & ? & ?).
Qed.

(** X19. Under the same condition, every tool of the registry is the one
    that [chat_stream] resolves its name to: the lookup by the name of a
    registered tool returns that tool, never another one. *)
Theorem registered_tool_is_found
    (get_tools : string -> option (list provider_tool))
    (server_names : list string) :
  (∀ s ts, get_tools s = Some ts →
           Forall (λ t, name_frozen t = false) ts) →
  ∃ self,
    fetch_servers get_tools server_names __init__ = Some self
    ∧ ∀ t, t ∈ tools self →
           find_tool (handles self) (tool_name t) = Some (handle t).
Proof.
  intros Hfrozen.
  destruct (fetch_servers_invariant get_tools server_names __init__ Hfrozen)
    as (self & Hfetch & Hnd & _); simpl; [constructor..|].
  exists self. split; [done|]. intros t Ht.
  unfold handles, tool_name. apply find_tool_unique.
  - by rewrite <-list_fmap_compose.
  - by apply list_elem_of_fmap_2.
Qed.

Lemma dict_get_set_eq {V} k (v : V) d : dict_get k (dict_set k v d) = Some v.
Proof.
  induction d as [|[k' v'] d IH]; simpl; [by case_decide|].
  case_decide; simpl; by case_decide.
Qed.

Lemma dict_get_set_ne {V} k k' (v : V) d :
  k ≠ k' → dict_get k' (dict_set k v d) = dict_get k' d.
Proof.
  intros Hne. induction d as [|[k0 v0] d IH]; simpl; [by case_decide|].
  case_decide as H0; simpl.
  - subst. by repeat case_decide.
  - by case_decide.
Qed.

Lemma dict_set_fresh {V} k (v : V) d :
  k ∉ (fst <$> d) → dict_set k v d = d ++ [(k, v)].
Proof.
  induction d as [|[k' v'] d IH]; simpl; [done|].
  intros Hnot. apply not_elem_of_cons in Hnot as [Hne Hnot].
  case_decide; [done|]. by rewrite IH.
Qed.

(** X20. A provider whose retrieval raises is isolated: it gets an empty
    group, and the flat list of tools, the set of names in use and the
    group of every other provider are what they would be had this provider
    not been configured. *)
Theorem failing_provider_is_isolated
    (get_tools : string -> option (list provider_tool))
    (before after : list string) (failing : string) (self : agent) :
  get_tools failing = None →
  ∃ with_it without_it,
    fetch_servers get_tools (before ++ failing :: after) self = Some with_it
    ∧ fetch_servers get_tools (before ++ after) self = Some without_it
    ∧ tools with_it = tools without_it
    ∧ _used_tool_names with_it = _used_tool_names without_it
    ∧ dict_get failing (tools_by_server with_it) = Some []
    ∧ ∀ other,
        other ≠ failing →
        dict_get other (tools_by_server with_it)
        = dict_get other (tools_by_server without_it).
Proof.
  intros Hfail.
  assert (∀ l a b,
            tools a = tools b →
            _used_tool_names a = _used_tool_names b →
            dict_get failing (tools_by_server a) = Some [] →
            (∀ other, other ≠ failing →
                      dict_get other (tools_by_server a)
                      = dict_get other (tools_by_server b)) →
            ∃ a' b',
              fetch_servers get_tools l a = Some a'
              ∧ fetch_servers get_tools l b = Some b'
              ∧ tools a' = tools b'
              ∧ _used_tool_names a' = _used_tool_names b'
              ∧ dict_get failing (tools_by_server a') = Some []
              ∧ ∀ other, other ≠ failing →
                         dict_get other (tools_by_server a')
                         = dict_get other (tools_by_server b')) as Hrel.
  { induction l as [|s l IH]; intros a b Ht Hu Hf Ho; simpl.
    - by exists a, b.
    - destruct (decide (s = failing)) as [->|Hs].
      + rewrite Hfail. apply IH; simpl; try done.
        * apply dict_get_set_eq.
        * intros other Hne. by rewrite !dict_get_set_ne, Ho.
      + destruct (get_tools s) as [ts|]; rewrite <-?Hu.
        * destruct (sanitize_server_tools_spec ts (_used_tool_names a))
            as (out & used' & names & -> & _).
          apply IH; simpl; try done.
          -- by rewrite Ht.
          -- by rewrite dict_get_set_ne.
          -- intros other Hne. destruct (decide (s = other)) as [->|Hso].
             ++ by rewrite !dict_get_set_eq.
             ++ by rewrite !dict_get_set_ne, Ho.
        * apply IH; simpl; try done.
          -- by rewrite dict_get_set_ne.
          -- intros other Hne. destruct (decide (s = other)) as [->|Hso].
             ++ by rewrite !dict_get_set_eq.
             ++ by rewrite !dict_get_set_ne, Ho. }
  revert self. induction before as [|s before IH]; intros self; simpl.
  - rewrite Hfail. apply Hrel; simpl; try done.
    + apply dict_get_set_eq.
    + intros other Hne. by rewrite dict_get_set_ne.
  - destruct (get_tools s) as [ts|]; [|apply IH].
    destruct (sanitize_server_tools_spec ts (_used_tool_names self))
      as (out & used' & names & -> & _). apply IH.
Qed.

(** The groups that the retrieval adds, for provider names that are
    distinct and new to the registry. *)
Lemma fetch_servers_groups get_tools l self :
  NoDup l →
  (∀ s, s ∈ l → s ∉ (fst <$> tools_by_server self)) →
  ∃ self' groups,
    fetch_servers get_tools l self = Some self'
    ∧ length groups = length l
    ∧ tools self' = tools self ++ concat groups
    ∧ tools_by_server self' = tools_by_server self ++ zip l groups
    ∧ Forall2 (λ s group,
                 length group
                 = match get_tools s with
                   | Some ts => length ts
                   | None => 0
                   end) l groups.
Proof.
  revert self. induction l as [|s l IH]; intros self Hnd Hfresh; simpl.
  - exists self, []. rewrite !app_nil_r. by split_and!.
  - apply NoDup_cons in Hnd as [Hs Hnd].
    assert (s ∉ (fst <$> tools_by_server self)) as Hsf.
    { apply Hfresh. apply elem_of_cons. by left. }
    assert (∀ v s', s' ∈ l →
                    s' ∉ (fst <$> dict_set s v (tools_by_server self)))
      as Hnext.
    { intros v s' Hin. rewrite dict_set_fresh by done.
      rewrite fmap_app. simpl. intros [Hold|Hnew%list_elem_of_singleton]%elem_of_app.
      - eapply Hfresh; [|exact Hold]. apply elem_of_cons. by right.
      - by subst. }
    destruct (get_tools s) as [ts|] eqn:Hget.
    + destruct (sanitize_server_tools_spec ts (_used_tool_names self))
        as (out & used' & names & -> & _ & Hsame & _).
      edestruct IH as (self' & groups & -> & Hlen & Ht & Hby & Hsizes);
        [exact Hnd|apply Hnext|].
      simpl in Ht, Hby. rewrite dict_set_fresh in Hby by done.
      exists self', (out :: groups). simpl.
      rewrite Ht, Hby, <-!app_assoc. split_and!; try done; [by rewrite Hlen|].
      constructor; [|done]. rewrite Hget.
      symmetry. by eapply Forall2_length.
    + edestruct IH as (self' & groups & -> & Hlen & Ht & Hby & Hsizes);
        [exact Hnd|apply Hnext|].
      simpl in Ht, Hby. rewrite dict_set_fresh in Hby by done.
      exists self', ([] :: groups). simpl.
      rewrite Ht, Hby, <-!app_assoc. split_and!; try done; [by rewrite Hlen|].
      constructor; [|done]. by rewrite Hget.
Qed.

Lemma fetch_fresh_groups get_tools server_names :
  NoDup server_names →
  ∃ self,
    fetch_servers get_tools server_names __init__ = Some self
    ∧ fst <$> tools_by_server self = server_names
    ∧ tools self = concat (snd <$> tools_by_server self)
    ∧ Forall (λ group : string * list provider_tool,
                length group.2
                = match get_tools group.1 with
                  | Some ts => length ts
                  | None => 0
                  end) (tools_by_server self).
Proof.
  intros Hnd.
  destruct (fetch_servers_groups get_tools server_names __init__ Hnd)
    as (self & groups & Hfetch & Hlen & Ht & Hby & Hsizes).
  { intros s _ Hin. by apply elem_of_nil in Hin. }
  exists self. simpl in Ht, Hby. rewrite Ht, Hby.
  split_and!; try done.
  - apply fst_zip. lia.
  - rewrite snd_zip by lia. done.
  - clear -Hsizes. induction Hsizes; simpl; by constructor.
Qed.

(** X21. With distinct provider names, the registry of a fresh agent
    after the retrieval has one group per provider, in the order of the
    providers, and its flat list of tools is the concatenation of the
    groups in that order; a provider whose retrieval raised has the empty
    group, the others have as many tools as they returned. *)
Theorem tools_are_the_groups_in_order
    (get_tools : string -> option (list provider_tool))
    (server_names : list string) :
  NoDup server_names →
  ∃ self,
    fetch_servers get_tools server_names __init__ = Some self
    ∧ fst <$> tools_by_server self = server_names
    ∧ tools self = concat (snd <$> tools_by_server self)
    ∧ Forall (λ group,
                length group.2
                = match get_tools group.1 with
                  | Some ts => length ts
                  | None => 0
                  end) (tools_by_server self).
Proof. apply fetch_fresh_groups. Qed.

(** X22. Renaming changes nothing but the name: the tools of a group are
    the tools that the provider returned, one for one and in order, with
    the same [ainvoke], description and schemas. *)
Theorem renaming_keeps_the_tools (used : gset string)
    (server_tools : list provider_tool) :
  ∃ out used',
    sanitize_server_tools used server_tools = Some (out, used')
    ∧ Forall2 (λ t t',
                 description t' = description t
                 ∧ ainvoke (handle t') = ainvoke (handle t)
                 ∧ args_schema t' = args_schema t
                 ∧ tool_call_schema t' = tool_call_schema t
                 ∧ input_schema t' = input_schema t) server_tools out
    ∧ Forall2 (λ t t',
                 tool_name t' = tool_name t
                 ∨ (name_frozen t = false
                    ∧ (tool_name t' ∉ used)
                    ∧ tool_name t' ∈ used')) server_tools out.
Proof.
  destruct (sanitize_server_tools_spec server_tools used)
    as (out & used' & names & Hcall & _ & Hsame & _).
  exists out, used'. split_and!; try done.
  clear Hsame names. revert used out used' Hcall.
  induction server_tools as [|t rest IH]; intros used out used'.
  - intros [= <- <-]. constructor.
  - cbn [sanitize_server_tools]. rewrite str_or_self.
    destruct (sanitize_spec used (tool_name t)) as (k & _ & -> & Hfresh & _).
    set (sanitized := candidate (base_of (tool_name t)) k) in *.
    destruct (sanitize_server_tools _ rest) as [[out1 used1]|] eqn:Hrest;
      [|done].
    intros [= <- <-].
    destruct (sanitize_server_tools_spec rest ({[sanitized]} ∪ used))
      as (out2 & used2 & names2 & Hcall2 & Hnames2 & _).
    rewrite Hrest in Hcall2. injection Hcall2 as <- <-.
    destruct (sanitize_names_NoDup (tool_name <$> rest) ({[sanitized]} ∪ used))
      as (n3 & u3 & Hcall3 & _ & Hsub & _).
    rewrite Hnames2 in Hcall3. injection Hcall3 as <- <-.
    constructor.
    + destruct (String.eqb sanitized (tool_name t)); [by left|].
      unfold set_name. destruct (name_frozen t) eqn:Hf; [by left|].
      right. split_and!; try done.
      apply Hsub, elem_of_union_l. by apply elem_of_singleton.
    + eapply Forall2_impl; [by eapply IH|].
      intros t1 t2 [?|(? & Hnot & ?)]; [by left|right].
      split_and!; try done. intros Hu. apply Hnot. by apply elem_of_union_r.
Qed.

(** *** [get_tools_info] *)

Lemma servers_info_loop_spec items servers_info total :
  NoDup (fst <$> items) →
  (∀ s, s ∈ (fst <$> items) → s ∉ (fst <$> servers_info)) →
  servers_info_loop items servers_info total
  = (servers_info
     ++ ((λ group : string * list provider_tool,
            (group.1,
             {| server_name := group.1;
                server_tools := tool_info_of <$> group.2;
                tool_count := length group.2 |})) <$> items),
     total + length (concat (snd <$> items))).
Proof.
  revert servers_info total.
  induction items as [|[s ts] items IH]; intros servers_info total Hnd Hfresh;
    simpl.
  - by rewrite app_nil_r, Nat.add_0_r.
  - apply NoDup_cons in Hnd as [Hs Hnd].
    rewrite dict_set_fresh by (apply Hfresh, elem_of_cons; by left).
    rewrite IH; [|done|].
    + rewrite <-app_assoc, length_fmap, length_app. simpl. f_equal.
      by rewrite <-Nat.add_assoc.
    + intros s' Hin. rewrite fmap_app. simpl.
      intros [Hold|Hnew%list_elem_of_singleton]%elem_of_app.
      * eapply Hfresh; [|exact Hold]. apply elem_of_cons. by right.
      * by subst.
Qed.

Lemma tool_info_of_identity t :
  info_name (tool_info_of t) = tool_name t
  ∧ info_description (tool_info_of t) = description t.
Proof.
  unfold tool_info_of.
  destruct (find_schema t) as [[[| | | | |schema]| |]|]; try done.
  destruct (truthy _); [|done]. by destruct (dict_get "properties" schema).
Qed.

Lemma get_tools_info_spec self :
  NoDup (fst <$> tools_by_server self) →
  servers (get_tools_info self)
  = ((λ group : string * list provider_tool,
        (group.1,
         {| server_name := group.1;
            server_tools := tool_info_of <$> group.2;
            tool_count := length group.2 |})) <$> tools_by_server self)
  ∧ total_tools (get_tools_info self)
    = length (concat (snd <$> tools_by_server self))
  ∧ server_count (get_tools_info self) = length (tools_by_server self).
Proof.
  intros Hnd. unfold get_tools_info.
  destruct (tools_by_server self) as [|group groups] eqn:Hby; [done|].
  rewrite servers_info_loop_spec; [|done|].
  - simpl. by rewrite length_fmap.
  - intros s _ Hin. by apply elem_of_nil in Hin.
Qed.

(** X23. The export lists every tool of every group, in order, under its
    name and description, whatever its schema is like; [tool_count] is
    the size of each group, [total_tools] the number of tools of all groups
    and [server_count] the number of groups. *)
Theorem tools_info_lists_every_tool (self : agent) :
  NoDup (fst <$> tools_by_server self) →
  servers (get_tools_info self)
  = ((λ group : string * list provider_tool,
        (group.1,
         {| server_name := group.1;
            server_tools := tool_info_of <$> group.2;
            tool_count := length group.2 |})) <$> tools_by_server self)
  ∧ total_tools (get_tools_info self)
    = length (concat (snd <$> tools_by_server self))
  ∧ server_count (get_tools_info self) = length (tools_by_server self)
  ∧ ∀ t, info_name (tool_info_of t) = tool_name t
         ∧ info_description (tool_info_of t) = description t.
Proof.
  intros Hnd. destruct (get_tools_info_spec self Hnd) as (Hs & Ht & Hc).
  split_and!; try done. apply tool_info_of_identity.
Qed.

(** X24. A non-empty dictionary in [args_schema] decides alone, whatever
    [tool_call_schema] and [input_schema] hold: the parameters are its
    ["properties"], and its ["required"] list is kept only when it has
    ["properties"]; without them the parameters and the required list are
    both empty. *)
Theorem args_schema_dictionary_decides (tool : provider_tool)
    (entry : string * pyval) (entries : list (string * pyval)) :
  args_schema tool = Some (obj_plain (PDict (entry :: entries))) →
  parameters (tool_info_of tool)
  = default (PDict []) (dict_get "properties" (entry :: entries))
  ∧ required (tool_info_of tool)
    = match dict_get "properties" (entry :: entries) with
      | Some _ => default (PList []) (dict_get "required" (entry :: entries))
      | None => PList []
      end.
Proof.
  intros Hargs. unfold tool_info_of, find_schema. rewrite Hargs.
  cbn [attr_truthy truthy_obj truthy length Nat.eqb negb andb].
  by destruct (dict_get "properties" (entry :: entries)).
Qed.

(** X25. When the [model_json_schema] of [args_schema] raises, the tool is
    exported with empty parameters, even when [tool_call_schema] or
    [input_schema] would have given them: the exception ends the search. *)
Theorem failing_args_schema_blanks_parameters (tool : provider_tool) :
  args_schema tool = Some (obj_model None) →
  tool_info_of tool
  = {| info_name := tool_name tool; info_description := description tool;
       parameters := PDict []; required := PList [] |}.
Proof. intros Hargs. unfold tool_info_of, find_schema. by rewrite Hargs. Qed.

(** X26. When [args_schema] gives nothing and [tool_call_schema] is an
    object that is not a dictionary, the tool is exported with empty
    parameters and [input_schema] is not consulted: the second attempt
    takes the object as it is. *)
Theorem opaque_tool_call_schema_hides_input_schema (tool : provider_tool)
    (o : pyobj) :
  attr_truthy (args_schema tool) = false →
  tool_call_schema tool = Some o →
  (o = obj_opaque ∨ ∃ json, o = obj_model json) →
  tool_info_of tool
  = {| info_name := tool_name tool; info_description := description tool;
       parameters := PDict []; required := PList [] |}.
Proof.
  intros Hargs Hcall Ho. unfold tool_info_of, find_schema.
  rewrite Hargs, Hcall.
  by destruct Ho as [->|[json ->]].
Qed.

(** X27. After the retrieval on a fresh agent with distinct provider
    names, the export agrees with the registry: one entry per provider in
    the order of the providers, and [total_tools] is the length of the flat
    list of tools. *)
Theorem tools_info_after_retrieval
    (get_tools : string -> option (list provider_tool))
    (server_names : list string) :
  NoDup server_names →
  ∃ self,
    fetch_servers get_tools server_names __init__ = Some self
    ∧ fst <$> servers (get_tools_info self) = server_names
    ∧ server_count (get_tools_info self) = length server_names
    ∧ total_tools (get_tools_info self) = length (tools self).
Proof.
  intros Hnd.
  destruct (fetch_fresh_groups get_tools server_names Hnd)
    as (self & Hfetch & Hkeys & Htools & _).
  exists self. split; [done|].
  destruct (get_tools_info_spec self) as (Hs & Ht & Hc);
    [by rewrite Hkeys|].
  rewrite Hs, Ht, Hc, Htools. split_and!; try done.
  - rewrite <-list_fmap_compose. rewrite <-Hkeys. by apply list_fmap_ext.
  - by rewrite <-Hkeys, length_fmap.
Qed.

End RegistryFacts.

(** ** The further properties on scripted inputs *)

Section MoreRuns.
Import WebMCPAgent Trace Samples Sanitizer Registry RegistrySamples.

Lemma falsy_arguments_become_empty_dict_witness :
  truthy (PInt 0) = false
  ∧ (∀ fn, (None : option function_call) = Some fn →
           truthy (fn_arguments fn) = false)
  ∧ parsed_args_of json_loads_sample py_str_sample 1
      (ToolCallObj None (Some "get_weather") (PInt 0)) = PDict [].
Proof.
  assert (truthy (PInt 0) = false) as H1 by reflexivity.
  assert (∀ fn, (None : option function_call) = Some fn →
                truthy (fn_arguments fn) = false) as H2 by (intros fn [=]).
  destruct (falsy_arguments_become_empty_dict json_loads_sample py_str_sample
              1 None (Some "get_weather") None (PInt 0) H1 H2) as [Hobj _].
  split_and!; [exact H1|exact H2|exact Hobj].
Defined.

Lemma fallback_ids_are_distinct_witness :
  truthy_str (tool_call_id_field call_flaky) = false
  ∧ truthy_str (tool_call_id_field (ToolCallObj (Some "") None PNone)) = false
  ∧ 1 ≠ 2
  ∧ tool_id_of 1 call_flaky = "call_1"
  ∧ tool_id_of 2 (ToolCallObj (Some "") None PNone) = "call_2".
Proof.
  assert (truthy_str (tool_call_id_field call_flaky) = false)
    as H1 by reflexivity.
  assert (truthy_str (tool_call_id_field (ToolCallObj (Some "") None PNone))
          = false) as H2 by reflexivity.
  assert (1 ≠ 2) as H3 by lia.
  destruct (fallback_ids_are_distinct 1 2 call_flaky
              (ToolCallObj (Some "") None PNone) H1 H2 H3) as (Ha & Hb & _).
  split_and!; [exact H1|exact H2|exact H3|exact Ha|exact Hb].
Defined.

Lemma sanitize_keeps_valid_fresh_name_witness :
  "get_weather" ≠ ""
  ∧ string_forallb in_class "get_weather" = true
  ∧ ("get_weather" ∉ ({[ "route" ]} : gset string))
  ∧ _sanitize_and_uniq_tool_name {[ "route" ]} "get_weather"
    = Some ("get_weather", {[ "get_weather" ]} ∪ {[ "route" ]}).
Proof.
  assert ("get_weather" ≠ "") as H1 by discriminate.
  assert (string_forallb in_class "get_weather" = true) as H2 by reflexivity.
  assert ("get_weather" ∉ ({[ "route" ]} : gset string)) as H3.
  { intros Hin. apply elem_of_singleton in Hin. discriminate. }
  split_and!; [exact H1|exact H2|exact H3|].
  exact (sanitize_keeps_valid_fresh_name {[ "route" ]} "get_weather" H1 H2 H3).
Defined.

Lemma save_then_load_witness :
  (MCPConfig.config_file config_sample ∉ MCPConfig.read_only fs_missing)
  ∧ json_loads_sample (json_dumps_sample (PDict [])) = Some (PDict [])
  ∧ MCPConfig.load_config json_loads_sample json_dumps_sample config_sample
      (MCPConfig.save_config json_dumps_sample config_sample (PDict [])
         fs_missing)
    = (PDict [],
       MCPConfig.save_config json_dumps_sample config_sample (PDict [])
         fs_missing).
Proof.
  assert (MCPConfig.config_file config_sample
          ∉ MCPConfig.read_only fs_missing) as H1 by apply not_elem_of_empty.
  assert (json_loads_sample (json_dumps_sample (PDict [])) = Some (PDict []))
    as H2 by reflexivity.
  split_and!; [exact H1|exact H2|].
  exact (save_then_load json_loads_sample json_dumps_sample config_sample
           (PDict []) fs_missing H1 H2).
Defined.

Lemma get_tools_sample_assignable s ts :
  get_tools_sample s = Some ts → Forall (λ t, name_frozen t = false) ts.
Proof.
  unfold get_tools_sample.
  destruct (String.eqb s "maps"); [intros [= <-]; by repeat constructor|].
  destruct (String.eqb s "search"); [intros [= <-]; by repeat constructor|].
  done.
Defined.

Lemma providers_sample_distinct : NoDup providers_sample.
Proof.
  unfold providers_sample. repeat constructor.
  - intros Hin. repeat (apply elem_of_cons in Hin as [Heq|Hin];
      [discriminate|]). by apply elem_of_nil in Hin.
  - intros Hin. repeat (apply elem_of_cons in Hin as [Heq|Hin];
      [discriminate|]). by apply elem_of_nil in Hin.
  - intros Hin. by apply elem_of_nil in Hin.
Defined.

Lemma fetched_names_are_unique_witness :
  (∀ s ts, get_tools_sample s = Some ts →
           Forall (λ t, name_frozen t = false) ts)
  ∧ ∃ self,
      fetch_servers get_tools_sample providers_sample __init__ = Some self
      ∧ tool_name <$> tools self = ["geo_code"; "route"; "geo_code_2"]
      ∧ NoDup (tool_name <$> tools self).
Proof.
  destruct (fetched_names_are_unique get_tools_sample providers_sample
              get_tools_sample_assignable) as (self & Hfetch & Hnd & _).
  split; [exact get_tools_sample_assignable|].
  exists self. split_and!; [exact Hfetch| |exact Hnd].
  assert (fetch_servers get_tools_sample providers_sample __init__
          = Some self) as Hcopy by exact Hfetch.
  vm_compute in Hcopy. injection Hcopy as <-. reflexivity.
Defined.

Lemma registered_tool_is_found_witness :
  (∀ s ts, get_tools_sample s = Some ts →
           Forall (λ t, name_frozen t = false) ts)
  ∧ ∃ self,
      fetch_servers get_tools_sample providers_sample __init__ = Some self
      ∧ ∀ t, t ∈ tools self →
             find_tool (handles self) (tool_name t) = Some (handle t).
Proof.
  split; [exact get_tools_sample_assignable|].
  exact (registered_tool_is_found get_tools_sample providers_sample
           get_tools_sample_assignable).
Defined.

Lemma failing_provider_is_isolated_witness :
  get_tools_sample "down" = None
  ∧ ∃ with_it without_it,
      fetch_servers get_tools_sample (["maps"] ++ "down" :: ["search"])
        __init__ = Some with_it
      ∧ fetch_servers get_tools_sample (["maps"] ++ ["search"]) __init__
        = Some without_it
      ∧ tools with_it = tools without_it
      ∧ dict_get "down" (tools_by_server with_it) = Some [].
Proof.
  assert (get_tools_sample "down" = None) as H1 by reflexivity.
  destruct (failing_provider_is_isolated get_tools_sample ["maps"] ["search"]
              "down" __init__ H1)
    as (a & b & Ha & Hb & Ht & _ & Hd & _).
  split; [exact H1|]. exists a, b.
  split_and!; [exact Ha|exact Hb|exact Ht|exact Hd].
Defined.

Lemma tools_are_the_groups_in_order_witness :
  NoDup providers_sample
  ∧ ∃ self,
      fetch_servers get_tools_sample providers_sample __init__ = Some self
      ∧ fst <$> tools_by_server self = ["maps"; "down"; "search"]
      ∧ tools self = concat (snd <$> tools_by_server self).
Proof.
  destruct (tools_are_the_groups_in_order get_tools_sample providers_sample
              providers_sample_distinct) as (self & Hfetch & Hk & Ht & _).
  split; [exact providers_sample_distinct|].
  exists self. split_and!; [exact Hfetch|exact Hk|exact Ht].
Defined.

Lemma tools_info_after_retrieval_witness :
  NoDup providers_sample
  ∧ ∃ self,
      fetch_servers get_tools_sample providers_sample __init__ = Some self
      ∧ server_count (get_tools_info self) = 3
      ∧ total_tools (get_tools_info self) = length (tools self).
Proof.
  destruct (tools_info_after_retrieval get_tools_sample providers_sample
              providers_sample_distinct) as (self & Hfetch & _ & Hc & Ht).
  split; [exact providers_sample_distinct|].
  exists self. split_and!; [exact Hfetch|exact Hc|exact Ht].
Defined.

Lemma tools_info_lists_every_tool_witness :
  NoDup (fst <$> tools_by_server agent_sample)
  ∧ total_tools (get_tools_info agent_sample) = 3
  ∧ server_count (get_tools_info agent_sample) = 2.
Proof.
  assert (NoDup (fst <$> tools_by_server agent_sample)) as H1.
  { simpl. repeat constructor.
    - intros Hin. repeat (apply elem_of_cons in Hin as [Heq|Hin];
        [discriminate|]). by apply elem_of_nil in Hin.
    - intros Hin. by apply elem_of_nil in Hin. }
  destruct (tools_info_lists_every_tool agent_sample H1)
    as (_ & Ht & Hc & _).
  split_and!; [exact H1|rewrite Ht; reflexivity|rewrite Hc; reflexivity].
Defined.

Lemma args_schema_dictionary_decides_witness :
  args_schema tool_with_schema
  = Some (obj_plain
            (PDict (("properties", PDict [("q", PStr "string")])
                    :: [("required", PList [PStr "q"])])))
  ∧ parameters (tool_info_of tool_with_schema) = PDict [("q", PStr "string")]
  ∧ required (tool_info_of tool_with_schema) = PList [PStr "q"].
Proof.
  assert (args_schema tool_with_schema
          = Some (obj_plain
                    (PDict (("properties", PDict [("q", PStr "string")])
                            :: [("required", PList [PStr "q"])]))))
    as H1 by reflexivity.
  destruct (args_schema_dictionary_decides tool_with_schema _ _ H1)
    as [Hp Hr].
  split_and!; [exact H1|rewrite Hp; reflexivity|rewrite Hr; reflexivity].
Defined.

Lemma failing_args_schema_blanks_parameters_witness :
  args_schema tool_with_failing_model = Some (obj_model None)
  ∧ input_schema tool_with_failing_model
    = Some (obj_plain (PDict [("properties", PDict [("q", PStr "string")])]))
  ∧ parameters (tool_info_of tool_with_failing_model) = PDict [].
Proof.
  assert (args_schema tool_with_failing_model = Some (obj_model None))
    as H1 by reflexivity.
  split_and!; [exact H1|reflexivity|].
  by rewrite (failing_args_schema_blanks_parameters
                tool_with_failing_model H1).
Defined.

Lemma opaque_tool_call_schema_hides_input_schema_witness :
  attr_truthy (args_schema tool_with_opaque_call_schema) = false
  ∧ tool_call_schema tool_with_opaque_call_schema = Some obj_opaque
  ∧ (obj_opaque = obj_opaque ∨ ∃ json, obj_opaque = obj_model json)
  ∧ parameters (tool_info_of tool_with_opaque_call_schema) = PDict [].
Proof.
  assert (attr_truthy (args_schema tool_with_opaque_call_schema) = false)
    as H1 by reflexivity.
  assert (tool_call_schema tool_with_opaque_call_schema = Some obj_opaque)
    as H2 by reflexivity.
  assert (obj_opaque = obj_opaque ∨ ∃ json, obj_opaque = obj_model json)
    as H3 by (by left).
  split_and!; [exact H1|exact H2|exact H3|].
  by rewrite (opaque_tool_call_schema_hides_input_schema
                tool_with_opaque_call_schema obj_opaque H1 H2 H3).
Defined.

(** The retrieval on the scripted providers: the colliding names get a
    suffix and the provider that is down gets the empty group. *)
Example retrieval_on_samples :
  (λ self,
     (tool_name <$> tools self,
      (λ group : string * list provider_tool,
         (group.1, tool_name <$> group.2)) <$> tools_by_server self))
  <$> fetch_servers get_tools_sample providers_sample __init__
  = Some (["geo_code"; "route"; "geo_code_2"],
          [("maps", ["geo_code"; "route"]); ("down", []);
           ("search", ["geo_code_2"])]).
Proof. vm_compute. reflexivity. Qed.

End MoreRuns.
